(** * modsim-baseball: the projectile stepper and the camera transition

    A shallow embedding of [src/script.js]: the physics step, the start and
    landing handlers, the camera fly-to animation and the browser's interval
    timers that drive them.

    The script is written once, over a numeric interface [Number].  A
    JavaScript number is an IEEE 754 binary64 float: the instance
    [Binary64] gives the operations their rounding, overflow and NaN as
    the standard library's [SpecFloat] defines them, and the instance on
    the processor's floats runs the same script for comparison.  What
    depends on no arithmetic (timers, path, landing, camera transition) is
    proved for every instance; what the arithmetic decides is proved on
    [Binary64]. *)

From Stdlib Require Import ZArith Lia List Bool.
From Stdlib Require Import Floats.SpecFloat.
From Stdlib Require Floats.PrimFloat Floats.FloatOps.
From stdpp Require Import base option gmap.

Set Default Proof Using "Type".

(** ** JavaScript numbers *)

(** The operations the script applies to numbers. *)
Class Number := {
  num : Type;
  of_Z : Z -> num;             (* an integer literal *)
  nadd : num -> num -> num;    (* a + b *)
  nsub : num -> num -> num;    (* a - b *)
  nmul : num -> num -> num;    (* a * b *)
  ndiv : num -> num -> num;    (* a / b *)
  nneg : num -> num;           (* -a *)
  nsqrt : num -> num;          (* Math.sqrt(a) *)
  nmax : num -> num -> num;    (* Math.max(a, b) *)
  nleb : num -> num -> bool;   (* a <= b *)
  truthy : num -> bool;        (* ToBoolean(a), as in a || b *)
  nPI : num                    (* Math.PI *)
}.

Declare Scope num_scope.
Delimit Scope num_scope with num.
Bind Scope num_scope with num.
Infix "+" := nadd : num_scope.
Infix "-" := nsub : num_scope.
Infix "*" := nmul : num_scope.
Infix "/" := ndiv : num_scope.
Notation "- x" := (nneg x) : num_scope.
Infix "<=?" := nleb : num_scope.

(** A decimal literal [m]e-[k], such as 9.8 = [dec 98 1] or
    1.45e-3 = [dec 145 5].  Its value is the rational m / 10^k; at binary64
    the quotient of the two integers (both exact) is rounded once, to the
    nearest double, which is how a literal is read. *)
Definition dec `{Number} (m : Z) (k : nat) : num :=
  (of_Z m / of_Z (10 ^ Z.of_nat k))%num.

(** [a || b] on numbers. *)
Definition or_else `{Number} (a b : num) : num := if truthy a then a else b.

(** *** binary64 *)

Module B64.

Definition add := SFadd 53 1024.
Definition sub := SFsub 53 1024.
Definition mul := SFmul 53 1024.
Definition div := SFdiv 53 1024.
Definition sqrt := SFsqrt 53 1024.
Definition opp := SFopp.
Definition of_Z (z : Z) : spec_float := binary_normalize 53 1024 z 0 false.

Definition leb := SFleb.

(** ToBoolean: false for +0, -0 and NaN. *)
Definition truthy (x : spec_float) : bool :=
  match x with
  | S754_zero _ | S754_nan => false
  | _ => true
  end.

(** Math.max: NaN if either argument is NaN; +0 is larger than -0. *)
Definition max (x y : spec_float) : spec_float :=
  match SFcompare x y with
  | None => S754_nan
  | Some Lt => y
  | Some Gt => x
  | Some Eq =>
      match x, y with
      | S754_zero sx, S754_zero sy => S754_zero (sx && sy)
      | _, _ => x
      end
  end.

(** Math.PI is the double nearest to pi, 3.141592653589793. *)
Definition PI : spec_float :=
  div (of_Z 3141592653589793) (of_Z 1000000000000000).

(** Neither an infinity nor NaN. *)
Definition finite (x : spec_float) : bool :=
  match x with
  | S754_zero _ | S754_finite _ _ _ => true
  | _ => false
  end.

Definition is_zero (x : spec_float) : bool :=
  match x with
  | S754_zero _ => true
  | _ => false
  end.

Definition is_nan (x : spec_float) : bool :=
  match x with
  | S754_nan => true
  | _ => false
  end.

(** NaN, or a number (a zero and an infinity included) whose sign bit is
    [b]: [true] for minus. *)
Definition has_sign (b : bool) (x : spec_float) : bool :=
  match x with
  | S754_nan => true
  | S754_zero s | S754_infinity s | S754_finite s _ _ => Bool.eqb s b
  end.

End B64.

#[export] Instance Binary64 : Number := {|
  num := spec_float;
  of_Z := B64.of_Z;
  nadd := B64.add;
  nsub := B64.sub;
  nmul := B64.mul;
  ndiv := B64.div;
  nneg := B64.opp;
  nsqrt := B64.sqrt;
  nmax := B64.max;
  nleb := B64.leb;
  truthy := B64.truthy;
  nPI := B64.PI
|}.

(** ** three.js vectors

    The methods of [THREE.Vector3] the script calls, as three.js defines
    them, each as the function from the receiver (and arguments) to the
    receiver's new value: [multiplyScalar] multiplies each component,
    [divideScalar(s)] is [multiplyScalar(1 / s)], [addScaledVector(w, s)]
    adds [w.x * s] and so on, [lerp(w, alpha)] adds [(w.x - x) * alpha].
    [set], [copy] and [clone] carry the three components over unchanged;
    the script never shares a vector between two of its variables. *)

Section Vectors.

Context {N : Number}.

Record Vector3 := mkV { vx : num; vy : num; vz : num }.

Definition multiplyScalar (v : Vector3) (s : num) : Vector3 :=
  mkV (vx v * s) (vy v * s) (vz v * s).

Definition divideScalar (v : Vector3) (s : num) : Vector3 :=
  multiplyScalar v (of_Z 1 / s).

Definition lengthSq (v : Vector3) : num :=
  (vx v * vx v + vy v * vy v + vz v * vz v)%num.

Definition length (v : Vector3) : num := nsqrt (lengthSq v).

(** [this.divideScalar(this.length() || 1)]: a vector of length 0 (or NaN)
    is divided by 1. *)
Definition normalize (v : Vector3) : Vector3 :=
  divideScalar v (or_else (length v) (of_Z 1)).

Definition negate (v : Vector3) : Vector3 :=
  mkV (- vx v) (- vy v) (- vz v).

Definition addScaledVector (v w : Vector3) (s : num) : Vector3 :=
  mkV (vx v + vx w * s) (vy v + vy w * s) (vz v + vz w * s).

Definition lerp (v w : Vector3) (alpha : num) : Vector3 :=
  mkV (vx v + (vx w - vx v) * alpha)
      (vy v + (vy w - vy v) * alpha)
      (vz v + (vz w - vz v) * alpha).

Definition origin : Vector3 := mkV (of_Z 0) (of_Z 0) (of_Z 0).

(** ** The script's state *)

(** The widget-bound [options] object. *)
Record Options := {
  speed : num;
  rho : num;
  C_d : num;
  mass : num;
  area : num
}.

(** What [OrbitControls] reads and writes: its [target] and the camera's
    [position] and [rotation] (Euler angles x, y, z). *)
Record View := {
  target : Vector3;
  camera_position : Vector3;
  camera_rotation : Vector3
}.

End Vectors.

(** [orbitControls.update()] belongs to the three.js add-on, which is not
    part of the script: the development is parametric in what it does to
    the view. *)
Class OrbitControls {N : Number} := { orbitControls_update : View -> View }.

Section Script.

Context {N : Number} {Controls : OrbitControls}.

(** The two functions the script hands to [setInterval]: the top-level
    [step], and the arrow function of [animateEnd] with the variables it
    closes over ([frames], which it increments, [dist] and [center]). *)
Inductive Callback :=
  | CbStep
  | CbAnimate (frames : nat) (dist : num) (center : Vector3).

(** A live interval timer: its callback and its period in milliseconds. *)
Record Timer := { callback : Callback; delay : Z }.

Record State := {
  position : Vector3;              (* baseball.position *)
  velocity : Vector3;
  direction : Vector3;
  controller : Vector3;            (* directionController.position *)
  pathPoints : list Vector3;
  pathGeometry : list Vector3;     (* the points of the last setFromPoints *)
  view : View;
  enabled : bool;                  (* orbitControls.enabled *)
  options : Options;
  simulationInterval : option nat; (* undefined, or a timer id *)
  timers : gmap nat Timer;         (* the browser's live interval timers *)
  next_timer : nat                 (* the id the next setInterval returns *)
}.

Definition set_position (p : Vector3) (s : State) : State :=
  {| position := p; velocity := velocity s; direction := direction s;
     controller := controller s; pathPoints := pathPoints s;
     pathGeometry := pathGeometry s; view := view s; enabled := enabled s;
     options := options s; simulationInterval := simulationInterval s;
     timers := timers s; next_timer := next_timer s |}.

Definition set_velocity (v : Vector3) (s : State) : State :=
  {| position := position s; velocity := v; direction := direction s;
     controller := controller s; pathPoints := pathPoints s;
     pathGeometry := pathGeometry s; view := view s; enabled := enabled s;
     options := options s; simulationInterval := simulationInterval s;
     timers := timers s; next_timer := next_timer s |}.

Definition set_direction (d : Vector3) (s : State) : State :=
  {| position := position s; velocity := velocity s; direction := d;
     controller := controller s; pathPoints := pathPoints s;
     pathGeometry := pathGeometry s; view := view s; enabled := enabled s;
     options := options s; simulationInterval := simulationInterval s;
     timers := timers s; next_timer := next_timer s |}.

Definition set_controller (c : Vector3) (s : State) : State :=
  {| position := position s; velocity := velocity s; direction := direction s;
     controller := c; pathPoints := pathPoints s;
     pathGeometry := pathGeometry s; view := view s; enabled := enabled s;
     options := options s; simulationInterval := simulationInterval s;
     timers := timers s; next_timer := next_timer s |}.

Definition set_pathPoints (l : list Vector3) (s : State) : State :=
  {| position := position s; velocity := velocity s; direction := direction s;
     controller := controller s; pathPoints := l;
     pathGeometry := pathGeometry s; view := view s; enabled := enabled s;
     options := options s; simulationInterval := simulationInterval s;
     timers := timers s; next_timer := next_timer s |}.

Definition set_pathGeometry (l : list Vector3) (s : State) : State :=
  {| position := position s; velocity := velocity s; direction := direction s;
     controller := controller s; pathPoints := pathPoints s;
     pathGeometry := l; view := view s; enabled := enabled s;
     options := options s; simulationInterval := simulationInterval s;
     timers := timers s; next_timer := next_timer s |}.

Definition set_view (w : View) (s : State) : State :=
  {| position := position s; velocity := velocity s; direction := direction s;
     controller := controller s; pathPoints := pathPoints s;
     pathGeometry := pathGeometry s; view := w; enabled := enabled s;
     options := options s; simulationInterval := simulationInterval s;
     timers := timers s; next_timer := next_timer s |}.

Definition set_enabled (b : bool) (s : State) : State :=
  {| position := position s; velocity := velocity s; direction := direction s;
     controller := controller s; pathPoints := pathPoints s;
     pathGeometry := pathGeometry s; view := view s; enabled := b;
     options := options s; simulationInterval := simulationInterval s;
     timers := timers s; next_timer := next_timer s |}.

Definition set_options (o : Options) (s : State) : State :=
  {| position := position s; velocity := velocity s; direction := direction s;
     controller := controller s; pathPoints := pathPoints s;
     pathGeometry := pathGeometry s; view := view s; enabled := enabled s;
     options := o; simulationInterval := simulationInterval s;
     timers := timers s; next_timer := next_timer s |}.

Definition set_simulationInterval (i : option nat) (s : State) : State :=
  {| position := position s; velocity := velocity s; direction := direction s;
     controller := controller s; pathPoints := pathPoints s;
     pathGeometry := pathGeometry s; view := view s; enabled := enabled s;
     options := options s; simulationInterval := i;
     timers := timers s; next_timer := next_timer s |}.

Definition set_timers (t : gmap nat Timer) (n : nat) (s : State) : State :=
  {| position := position s; velocity := velocity s; direction := direction s;
     controller := controller s; pathPoints := pathPoints s;
     pathGeometry := pathGeometry s; view := view s; enabled := enabled s;
     options := options s; simulationInterval := simulationInterval s;
     timers := t; next_timer := n |}.

(** ** Interval timers *)

(** [setInterval(cb, ms)] registers a timer under a fresh id and returns
    the id. *)
Definition setInterval (cb : Callback) (ms : Z) (s : State) : nat * State :=
  (next_timer s,
   set_timers (<[next_timer s := {| callback := cb; delay := ms |}]> (timers s))
              (S (next_timer s)) s).

(** [clearInterval(id)]: nothing happens for [undefined] or for an id that
    names no live timer. *)
Definition clearInterval (id : option nat) (s : State) : State :=
  match id with
  | Some i => set_timers (delete i (timers s)) (next_timer s) s
  | None => s
  end.

(** ** The script's functions *)

(** [render], without the drawing: the direction follows the handle. *)
Definition render (s : State) : State :=
  let s := set_direction (controller s) s in
  set_direction (normalize (direction s)) s.

Definition dt : Z := 16.

(** [start]: reset and begin the simulation. *)
Definition start (s : State) : State :=
  let s := clearInterval (simulationInterval s) s in
  let s := set_pathGeometry [] s in
  let s := set_pathPoints [] s in
  let s := set_position (mkV (of_Z 0) (of_Z 0) (of_Z 0)) s in
  let s := set_velocity (direction s) s in
  let s := set_velocity (multiplyScalar (velocity s) (speed (options s))) s in
  let '(id, s) := setInterval CbStep dt s in
  set_simulationInterval (Some id) s.

(** [animateEnd]: stop the simulation, publish the path, and start the
    camera transition. *)
Definition animateEnd (s : State) : State :=
  let s := clearInterval (simulationInterval s) s in
  let s := set_pathGeometry (pathPoints s) s in
  let s := set_enabled false s in
  let dist := length (position s) in
  let center := multiplyScalar (position s) (dec 5 1) in
  snd (setInterval (CbAnimate 0 dist center) 16 s).

(** The interval callback of [animateEnd], run as timer [animationInterval]
    with the closure variables [frames], [dist] and [center]; [length] is
    the constant 40. *)
Definition animateFrame (animationInterval : nat)
    (frames : nat) (dist : num) (center : Vector3) (s : State) : State :=
  let tgt := lerp (target (view s)) center (dec 1 1) in
  let cam := mkV (vx tgt) (nmax dist (of_Z 2)) (vz tgt) in
  let rot := mkV (of_Z 0) (- of_Z 1)%num (of_Z 1) in
  let s := set_view (orbitControls_update
                       {| target := tgt;
                          camera_position := cam;
                          camera_rotation := rot |}) s in
  let frames := S frames in
  if Nat.eqb frames 40 then
    let s := clearInterval (Some animationInterval) s in
    set_enabled true s
  else
    set_timers (<[animationInterval :=
                   {| callback := CbAnimate frames dist center; delay := 16 |}]>
                  (timers s))
               (next_timer s) s.

(** The drag term of [step]. *)
Definition f_drag (o : Options) (v : Vector3) : Vector3 :=
  multiplyScalar (negate (normalize v))
                 (rho o * lengthSq v * C_d o * area o / of_Z 2)%num.

Definition a_drag (o : Options) (v : Vector3) : Vector3 :=
  multiplyScalar (f_drag o v) (mass o).

(** [step] up to its last statement: record the position, integrate, and
    point the orbit target at the ball. *)
Definition advance (s : State) : State :=
  let s := set_pathPoints (pathPoints s ++ [position s]) s in
  let dts := (of_Z dt / of_Z 1000)%num in
  let a_grav := mkV (of_Z 0) (- dec 98 1)%num (of_Z 0) in
  let a_drag := a_drag (options s) (velocity s) in
  let s := set_velocity (addScaledVector (velocity s) a_grav dts) s in
  let s := set_velocity (addScaledVector (velocity s) a_drag dts) s in
  let s := set_position (addScaledVector (position s) (velocity s) dts) s in
  set_view (orbitControls_update
              {| target := position s;
                 camera_position := camera_position (view s);
                 camera_rotation := camera_rotation (view s) |}) s.

(** [step]: one tick of the physics model, ending in the landing test. *)
Definition step (s : State) : State :=
  let s := advance s in
  if (vy (position s) <=? of_Z 0)%num then animateEnd s else s.

(** ** The event loop *)

Inductive Field := Fspeed | Frho | FC_d | Fmass | Farea.

Definition set_field (f : Field) (x : num) (o : Options) : Options :=
  match f with
  | Fspeed => {| speed := x; rho := rho o; C_d := C_d o; mass := mass o; area := area o |}
  | Frho => {| speed := speed o; rho := x; C_d := C_d o; mass := mass o; area := area o |}
  | FC_d => {| speed := speed o; rho := rho o; C_d := x; mass := mass o; area := area o |}
  | Fmass => {| speed := speed o; rho := rho o; C_d := C_d o; mass := x; area := area o |}
  | Farea => {| speed := speed o; rho := rho o; C_d := C_d o; mass := mass o; area := x |}
  end.

(** What the browser can make the script do next.  The panel stores any
    number typed into a field, unvalidated; a drag moves the handle; a
    camera gesture is whatever [OrbitControls] makes of it, and is
    ignored while the controls are disabled.  The three position
    read-outs of the panel are disabled and change nothing. *)
Inductive Event :=
  | Tick (id : nat)               (* interval [id] is due *)
  | Frame                         (* an animation frame: [render] *)
  | ClickStart                    (* the panel's start button *)
  | Edit (f : Field) (x : num)    (* a numeric field of the panel *)
  | DragStart                     (* the handle is grabbed *)
  | Drag (p : Vector3)            (* ... moved *)
  | DragEnd                       (* ... released *)
  | Orbit (w : View).             (* a camera gesture on the canvas *)

(** Running the callback of timer [id], if it is live. *)
Definition fire (id : nat) (s : State) : State :=
  match timers s !! id with
  | Some {| callback := CbStep |} => step s
  | Some {| callback := CbAnimate frames dist center |} =>
      animateFrame id frames dist center s
  | None => s
  end.

Definition handle (e : Event) (s : State) : State :=
  match e with
  | Tick id => fire id s
  | Frame => render s
  | ClickStart => start s
  | Edit f x => set_options (set_field f x (options s)) s
  | DragStart => set_enabled false s
  | Drag p => set_controller p s
  | DragEnd => set_enabled true s
  | Orbit w => if enabled s then set_view w s else s
  end.

Fixpoint run (es : list Event) (s : State) : State :=
  match es with
  | [] => s
  | e :: es => run es (handle e s)
  end.

(** The state once the script has loaded: the module body runs [render]
    once, before the panel (and so [start]) exists. *)
Definition init (o : Options) : State :=
  render
    {| position := mkV (of_Z 0) (of_Z 0) (of_Z 0);
       velocity := mkV (of_Z 0) (of_Z 0) (of_Z 0);
       direction := mkV (of_Z 0) (of_Z 1) (of_Z 0);
       controller := mkV (of_Z 0) (of_Z 0) (of_Z 0);
       pathPoints := [];
       pathGeometry := [];
       view := orbitControls_update
                 {| target := mkV (of_Z 0) (of_Z 0) (of_Z 0);
                    camera_position := mkV (of_Z 0) (of_Z 1) (of_Z 1);
                    camera_rotation := mkV (of_Z 0) (of_Z 0) (of_Z 0) |};
       enabled := true;
       options := o;
       simulationInterval := None;
       timers := ∅;
       next_timer := 1 |}.

(** The initial [options]; [x ** 2] is taken as [x * x]. *)
Definition options_init : Options :=
  {| speed := of_Z 10;
     rho := dec 12 1;
     C_d := dec 33 2;
     mass := dec 145 5;
     area := (nPI * (dec 73 3 / of_Z 2 * (dec 73 3 / of_Z 2)))%num |}.

(** ** Observations on a run *)

(** Timer [id] is live and runs [step]. *)
Definition is_step_timer (s : State) (id : nat) : bool :=
  match timers s !! id with
  | Some {| callback := CbStep |} => true
  | _ => false
  end.

(** RUNNING: the timer held in [simulationInterval] is live. *)
Definition running (s : State) : bool :=
  match simulationInterval s with
  | Some id => is_step_timer s id
  | None => false
  end.

(** The tick run from [s] leaves the ball at or below the ground. *)
Definition lands (s : State) : bool := (vy (position (step s)) <=? of_Z 0)%num.

(** An event that executes [step]. *)
Definition is_tick (e : Event) (s : State) : bool :=
  match e with
  | Tick id => is_step_timer s id
  | _ => false
  end.

Definition is_start (e : Event) : bool :=
  match e with
  | ClickStart => true
  | _ => false
  end.

(** No press of the start button among the events. *)
Definition no_start (es : list Event) : bool := forallb (fun e => negb (is_start e)) es.

(** The number of ticks executed while [es] runs from [s]. *)
Fixpoint ticks (es : list Event) (s : State) : nat :=
  match es with
  | [] => 0
  | e :: es => (if is_tick e s then 1 else 0) + ticks es (handle e s)
  end.

(** The ball's position at the beginning of each of those ticks. *)
Fixpoint recorded (es : list Event) (s : State) : list Vector3 :=
  match es with
  | [] => []
  | e :: es => (if is_tick e s then [position s] else []) ++ recorded es (handle e s)
  end.

(** How often timer [id] comes due among the events. *)
Fixpoint fires (id : nat) (es : list Event) : nat :=
  match es with
  | [] => 0
  | Tick i :: es => (if Nat.eqb i id then 1 else 0) + fires id es
  | _ :: es => fires id es
  end.

(** Events other than a timer coming due or a press of start touch neither
    the ball, nor the path, nor the timers. *)
Definition passive (e : Event) : bool :=
  match e with
  | Tick _ | ClickStart => false
  | _ => true
  end.

(** The timer invariant. *)
Record wf (s : State) : Prop := {
  (* ids are handed out in increasing order *)
  wf_live : forall i t, timers s !! i = Some t -> i < next_timer s;
  wf_var : forall i, simulationInterval s = Some i -> i < next_timer s;
  (* the only timer that runs [step] is the one in [simulationInterval] *)
  wf_step : forall i, is_step_timer s i = true -> simulationInterval s = Some i;
  (* and [simulationInterval] never names a camera transition *)
  wf_sim : forall i t, simulationInterval s = Some i ->
                       timers s !! i = Some t -> callback t = CbStep
}.

End Script.

(** ** Sample runs on binary64 *)

(** A stand-in for the add-on when the script is run: [update] leaves the
    view as it finds it. *)
#[local] Instance still : @OrbitControls Binary64 :=
  {| orbitControls_update := fun w => w |}.

(** The script as loaded, with its initial options. *)
Definition loaded : @State Binary64 := init options_init.

(** Dragging the handle straight above the ball, and a frame to pick the
    direction up. *)
Definition aim_up : list (@Event Binary64) :=
  [Drag (mkV (of_Z 0) (of_Z 3) (of_Z 0)); Frame].

(** The state after aiming up and pressing start. *)
Definition thrown : @State Binary64 := start (run aim_up loaded).

(** The events up to the last tick before the landing of the throw
    straight up. *)
Definition before_landing : list (@Event Binary64) :=
  aim_up ++ ClickStart :: repeat (Tick 1) 126.

(** The throw at 45 degrees in the x-y plane, to its landing on the 90th
    tick. *)
Definition thrown_aside : list (@Event Binary64) :=
  [Drag (mkV (of_Z 1) (of_Z 1) (of_Z 0)); Frame; ClickStart]
  ++ repeat (Tick 1) 90.

(** What gravity adds to the vertical velocity in one tick: -9.8 * 0.016,
    rounded. *)
Definition g_dt : @num Binary64 := (- dec 98 1 * (of_Z dt / of_Z 1000))%num.

(** ** binary64 spelled out

    The operations of the standard library's binary64, under the usual
    signs, for statements that spell the script's arithmetic out. *)

Declare Scope sf_scope.
Delimit Scope sf_scope with sf.
Notation "x + y" := (SFadd 53 1024 x y) : sf_scope.
Notation "x - y" := (SFsub 53 1024 x y) : sf_scope.
Notation "x * y" := (SFmul 53 1024 x y) : sf_scope.
Notation "x / y" := (SFdiv 53 1024 x y) : sf_scope.
Notation "- x" := (SFopp x) : sf_scope.

(** ** The velocity update as the specification writes it

    v + dt (gravity + drag), with dt = 0.016, gravity = (0, -9.8, 0) and
    drag the vector against v of magnitude 0.5 rho |v|^2 C_d area mass,
    evaluated as written in the arithmetic at hand.  It is compared with
    what [step] computes. *)
Definition claimed_velocity `{Number} (o : Options) (v : Vector3) : Vector3 :=
  let dt := dec 16 3 in
  let gravity := mkV (of_Z 0) (- dec 98 1)%num (of_Z 0) in
  let magnitude :=
    (dec 5 1 * rho o * lengthSq v * C_d o * area o * mass o)%num in
  let drag := multiplyScalar (negate (normalize v)) magnitude in
  mkV (vx v + dt * (vx gravity + vx drag))%num
      (vy v + dt * (vy gravity + vy drag))%num
      (vz v + dt * (vz gravity + vz drag))%num.

(** A throw straight up with the speed set to 1e200 in the panel. *)
Definition thrown_fast : @State Binary64 :=
  run (@Edit Binary64 Fspeed (of_Z (10 ^ 200)) :: aim_up ++ [ClickStart]) loaded.

(** ** The script on the machine's doubles

    Rocq's primitive floats are the processor's binary64 numbers. *)

Module Hardware.

Import PrimFloat FloatOps.

#[local] Set Warnings "-inexact-float".

(** Math.max on primitive floats. *)
Definition max (x y : float) : float :=
  match compare x y with
  | FNotComparable => nan
  | FLt => y
  | FGt => x
  | FEq => if is_zero x && negb (get_sign x && get_sign y) then zero else x
  end.

Definition Native : Number := {|
  num := float;
  of_Z := fun z => of_uint63 (Uint63Axioms.of_Z z);
  nadd := add;
  nsub := sub;
  nmul := mul;
  ndiv := div;
  nneg := opp;
  nsqrt := sqrt;
  nmax := max;
  nleb := leb;
  truthy := fun x => negb (is_zero x || is_nan x);
  nPI := 3.141592653589793%float
|}.

Definition hold : @OrbitControls Native :=
  {| orbitControls_update := fun w => w |}.

Definition to_spec (v : @Vector3 Native) : @Vector3 Binary64 :=
  @mkV Binary64 (Prim2SF (@vx Native v)) (Prim2SF (@vy Native v))
                (Prim2SF (@vz Native v)).

(** Aim straight up, start, and let the flight timer come due [n] times. *)
Definition flight (N : Number) (C : @OrbitControls N) (n : nat) : @State N :=
  @run N C ([Drag (mkV (of_Z 0) (of_Z 3) (of_Z 0)); Frame; ClickStart]
            ++ repeat (Tick 1) n)
       (@init N C options_init).

End Hardware.

(** ** Further observations *)

Section Observations.

Context {N : Number}.


(** Every interval of the script has a period of 16 ms, and a camera
    transition that is still live has run fewer than 40 times. *)
Definition timer_ok (t : Timer) : bool :=
  Z.eqb (delay t) 16 &&
  match callback t with
  | CbStep => true
  | CbAnimate frames _ _ => Nat.ltb frames 40
  end.

(** How often the camera transition under timer [a] has run, if [a] is a
    live transition. *)
Definition frames_of (s : State) (a : nat) : option nat :=
  match timers s !! a with
  | Some {| callback := CbAnimate frames _ _ |} => Some frames
  | _ => None
  end.

(** An event that is neither a timer coming due nor the release of the
    handle. *)
Definition holding (e : Event) : bool :=
  match e with
  | Tick _ | DragEnd => false
  | _ => true
  end.

(** An event that is neither a press of start nor an edit of the panel. *)
Definition hands_off (e : Event) : bool :=
  match e with
  | ClickStart | Edit _ _ => false
  | _ => true
  end.

End Observations.

(** ** Tactics *)

(** Open the state record and both cases of [simulationInterval], then
    compute. *)
Ltac by_fields s :=
  destruct s as [? ? ? ? ? ? ? ? ? [?|] ? ?]; cbn; repeat split; reflexivity.

(** The operations of the [Binary64] instance under their own names. *)
Ltac as_b64 :=
  change (@nadd Binary64) with B64.add in *;
  change (@nmul Binary64) with B64.mul in *;
  change (@ndiv Binary64) with B64.div in *;
  change (@nneg Binary64) with B64.opp in *;
  change (@nsqrt Binary64) with B64.sqrt in *;
  change (@truthy Binary64) with B64.truthy in *;
  change (@of_Z Binary64) with B64.of_Z in *.

(** Decide a closed equation by evaluating both sides in the VM. *)
Ltac by_vm :=
  cbv zeta;
  repeat match goal with |- _ /\ _ => split end;
  match goal with |- ?a = _ => vm_cast_no_check (eq_refl a) end.


(** * Properties *)

Section Properties.

Context {N : Number} {Controls : OrbitControls}.

Abbreviation animation f d c := {| callback := CbAnimate f d c; delay := 16 |}.
Abbreviation stepper := {| callback := CbStep; delay := dt |}.

(** ** What each function does to each part of the state *)

Lemma start_timers s :
  timers (start s) =
  <[next_timer s := stepper]>
    (match simulationInterval s with
     | Some i => delete i (timers s)
     | None => timers s
     end).
Proof. unfold start. by_fields s. Qed.

Lemma start_next_timer s : next_timer (start s) = S (next_timer s).
Proof. unfold start. by_fields s. Qed.

Lemma start_simulationInterval s :
  simulationInterval (start s) = Some (next_timer s).
Proof. unfold start. by_fields s. Qed.

Lemma start_path s : pathPoints (start s) = [] /\ pathGeometry (start s) = [].
Proof. unfold start. by_fields s. Qed.

Lemma start_position s : position (start s) = origin.
Proof. unfold start. by_fields s. Qed.

Lemma start_velocity s :
  velocity (start s) = multiplyScalar (direction s) (speed (options s)).
Proof. unfold start. by_fields s. Qed.

Lemma start_running s : running (start s) = true.
Proof.
  unfold running, is_step_timer.
  by rewrite start_simulationInterval, start_timers, lookup_insert_eq.
Qed.

Lemma animateEnd_timers s :
  timers (animateEnd s) =
  <[next_timer s :=
      animation 0 (length (position s)) (multiplyScalar (position s) (dec 5 1))]>
    (match simulationInterval s with
     | Some i => delete i (timers s)
     | None => timers s
     end).
Proof. unfold animateEnd. by_fields s. Qed.

Lemma animateEnd_rest s :
  position (animateEnd s) = position s /\
  velocity (animateEnd s) = velocity s /\
  pathPoints (animateEnd s) = pathPoints s /\
  pathGeometry (animateEnd s) = pathPoints s /\
  enabled (animateEnd s) = false /\
  simulationInterval (animateEnd s) = simulationInterval s /\
  next_timer (animateEnd s) = S (next_timer s).
Proof. unfold animateEnd. by_fields s. Qed.

Lemma step_cases s :
  step s = if lands s then animateEnd (advance s) else advance s.
Proof.
  unfold lands, step. cbn zeta.
  destruct (vy (position (advance s)) <=? of_Z 0)%num eqn:E.
  - destruct (animateEnd_rest (advance s)) as [-> _]. by rewrite E.
  - by rewrite E.
Qed.

Lemma step_position s :
  position (step s) =
  addScaledVector (position s) (velocity (step s)) (of_Z dt / of_Z 1000)%num.
Proof.
  rewrite step_cases. destruct (lands s); [|done].
  by destruct (animateEnd_rest (advance s)) as (-> & -> & _).
Qed.

Lemma step_velocity s :
  velocity (step s) =
  addScaledVector
    (addScaledVector (velocity s) (mkV (of_Z 0) (- dec 98 1)%num (of_Z 0))
                     (of_Z dt / of_Z 1000)%num)
    (a_drag (options s) (velocity s)) (of_Z dt / of_Z 1000)%num.
Proof.
  rewrite step_cases. destruct (lands s); [|done].
  by destruct (animateEnd_rest (advance s)) as (_ & -> & _).
Qed.

Lemma step_pathPoints s : pathPoints (step s) = pathPoints s ++ [position s].
Proof.
  rewrite step_cases. destruct (lands s); [|done].
  by destruct (animateEnd_rest (advance s)) as (_ & _ & -> & _).
Qed.

Lemma step_pathGeometry s :
  pathGeometry (step s) =
  if lands s then pathPoints s ++ [position s] else pathGeometry s.
Proof.
  rewrite step_cases. destruct (lands s); [|done].
  by destruct (animateEnd_rest (advance s)) as (_ & _ & _ & -> & _).
Qed.

Lemma step_enabled s :
  enabled (step s) = if lands s then false else enabled s.
Proof.
  rewrite step_cases. destruct (lands s); [|done].
  by destruct (animateEnd_rest (advance s)) as (_ & _ & _ & _ & -> & _).
Qed.

Lemma step_simulationInterval s :
  simulationInterval (step s) = simulationInterval s.
Proof.
  rewrite step_cases. destruct (lands s); [|done].
  by destruct (animateEnd_rest (advance s)) as (_ & _ & _ & _ & _ & -> & _).
Qed.

Lemma step_next_timer s :
  next_timer (step s) = if lands s then S (next_timer s) else next_timer s.
Proof.
  rewrite step_cases. destruct (lands s); [|done].
  by destruct (animateEnd_rest (advance s)) as (_ & _ & _ & _ & _ & _ & ->).
Qed.

Lemma step_timers s :
  timers (step s) =
  if lands s then
    <[next_timer s :=
        animation 0 (length (position (step s)))
                    (multiplyScalar (position (step s)) (dec 5 1))]>
      (match simulationInterval s with
       | Some i => delete i (timers s)
       | None => timers s
       end)
  else timers s.
Proof.
  rewrite step_position, step_velocity, step_cases.
  destruct (lands s); [|done]. by rewrite animateEnd_timers.
Qed.

Lemma animateFrame_timers a f d c s :
  timers (animateFrame a f d c s) =
  if Nat.eqb (S f) 40 then delete a (timers s)
  else <[a := animation (S f) d c]> (timers s).
Proof. unfold animateFrame. by case (Nat.eqb _ _). Qed.

Lemma animateFrame_enabled a f d c s :
  enabled (animateFrame a f d c s) =
  if Nat.eqb (S f) 40 then true else enabled s.
Proof. unfold animateFrame. by case (Nat.eqb _ _). Qed.

Lemma animateFrame_view a f d c s :
  view (animateFrame a f d c s) =
  orbitControls_update {| target := lerp (target (view s)) c (dec 1 1);
         camera_position :=
           mkV (vx (lerp (target (view s)) c (dec 1 1)))
               (nmax d (of_Z 2))
               (vz (lerp (target (view s)) c (dec 1 1)));
         camera_rotation := mkV (of_Z 0) (- of_Z 1)%num (of_Z 1) |}.
Proof. unfold animateFrame. by case (Nat.eqb _ _). Qed.

Lemma animateFrame_rest a f d c s :
  position (animateFrame a f d c s) = position s /\
  velocity (animateFrame a f d c s) = velocity s /\
  pathPoints (animateFrame a f d c s) = pathPoints s /\
  pathGeometry (animateFrame a f d c s) = pathGeometry s /\
  simulationInterval (animateFrame a f d c s) = simulationInterval s /\
  next_timer (animateFrame a f d c s) = next_timer s.
Proof. unfold animateFrame. case (Nat.eqb _ _); repeat split; reflexivity. Qed.

Lemma passive_fields e s :
  passive e = true ->
  position (handle e s) = position s /\
  velocity (handle e s) = velocity s /\
  pathPoints (handle e s) = pathPoints s /\
  pathGeometry (handle e s) = pathGeometry s /\
  simulationInterval (handle e s) = simulationInterval s /\
  timers (handle e s) = timers s /\
  next_timer (handle e s) = next_timer s.
Proof.
  destruct e; try discriminate; intros _; cbn; try by repeat split.
  by destruct (enabled s).
Qed.

Lemma is_step_timer_spec s i :
  is_step_timer s i = true <->
  exists ms, timers s !! i = Some {| callback := CbStep; delay := ms |}.
Proof.
  unfold is_step_timer.
  destruct (timers s !! i) as [[[|f d c] ms]|]; split;
    (done || (intros [? [=]]) || eauto).
Qed.

Lemma fire_step s id :
  is_step_timer s id = true -> fire id s = step s.
Proof.
  unfold fire, is_step_timer.
  by destruct (timers s !! id) as [[[|f d c] ms]|].
Qed.

Lemma fire_animation s a f d c ms :
  timers s !! a = Some {| callback := CbAnimate f d c; delay := ms |} ->
  fire a s = animateFrame a f d c s.
Proof. unfold fire. by intros ->. Qed.

Lemma fire_dead s id : timers s !! id = None -> fire id s = s.
Proof. unfold fire. by intros ->. Qed.

(** ** The timer invariant *)

Lemma wf_init o : wf (init o).
Proof. split; cbn; intros *; try done; rewrite ?lookup_empty; done. Qed.

(** Registering a timer after clearing [simulationInterval], as [start] and
    [animateEnd] do. *)
Lemma wf_replace s s' t :
  wf s ->
  timers s' =
    <[next_timer s := t]>
      (match simulationInterval s with
       | Some i => delete i (timers s)
       | None => timers s
       end) ->
  next_timer s' = S (next_timer s) ->
  (simulationInterval s' = Some (next_timer s) /\ callback t = CbStep \/
   simulationInterval s' = simulationInterval s /\ callback t <> CbStep) ->
  wf s'.
Proof.
  intros [Hl Hv Hs Hm] Ht Hn Hi.
  assert (Hold : forall i x,
    match simulationInterval s with
    | Some j => delete j (timers s)
    | None => timers s
    end !! i = Some x ->
    timers s !! i = Some x /\ simulationInterval s <> Some i).
  { intros i x. destruct (simulationInterval s) as [j|]; [|done].
    rewrite lookup_delete_Some. intros [? ?]. split; congruence. }
  split.
  - intros i x. rewrite Ht, Hn, lookup_insert_Some.
    intros [[<- _]|[_ H]]; [lia|]. apply Hold in H as [H _].
    apply Hl in H. lia.
  - intros i. rewrite Hn. destruct Hi as [[-> _]|[-> _]].
    + intros [= <-]. lia.
    + intros H. apply Hv in H. lia.
  - intros i. rewrite is_step_timer_spec, Ht. intros [ms H].
    apply lookup_insert_Some in H as [[<- ->]|[_ H]].
    + by destruct Hi as [[-> _]|[_ ?]].
    + apply Hold in H as [H Hne]. destruct Hne. apply Hs.
      apply is_step_timer_spec. eauto.
  - intros i x Hi'. rewrite Ht, lookup_insert_Some.
    intros [[<- <-]|[Hne H]].
    + destruct Hi as [[_ ?]|[E _]]; [done|].
      rewrite E in Hi'. apply Hv in Hi'. lia.
    + apply Hold in H as [H Hne']. destruct Hi as [[E _]|[E _]].
      * congruence.
      * rewrite E in Hi'. done.
Qed.

Lemma wf_start s : wf s -> wf (start s).
Proof.
  intros W. eapply wf_replace; [done|apply start_timers|apply start_next_timer|].
  left. by rewrite start_simulationInterval.
Qed.

Lemma wf_step_tick s : wf s -> wf (step s).
Proof.
  intros W. pose proof (step_timers s) as Ht.
  pose proof (step_next_timer s) as Hn.
  pose proof (step_simulationInterval s) as Hi.
  destruct (lands s).
  - eapply wf_replace; [done|apply Ht|apply Hn|]. by right.
  - destruct W as [Hl Hv Hs Hm].
    split; unfold is_step_timer; rewrite ?Ht, ?Hn, ?Hi; done.
Qed.

Lemma wf_animateFrame s a f d c ms :
  wf s ->
  timers s !! a = Some {| callback := CbAnimate f d c; delay := ms |} ->
  wf (animateFrame a f d c s).
Proof.
  intros [Hl Hv Hs Hm] Ha.
  pose proof (animateFrame_timers a f d c s) as Ht.
  destruct (animateFrame_rest a f d c s) as (_ & _ & _ & _ & Hi & Hn).
  split; unfold is_step_timer; rewrite ?Ht, ?Hi, ?Hn.
  - intros i x. destruct (Nat.eqb _ _).
    + rewrite lookup_delete_Some. intros [_ ?]. eauto.
    + rewrite lookup_insert_Some. intros [[<- _]|[_ ?]]; eauto.
  - done.
  - intros i. destruct (Nat.eqb _ _).
    + rewrite lookup_delete. case_decide; [done|]. apply Hs.
    + rewrite lookup_insert. case_decide; [done|]. apply Hs.
  - intros i x Hi'. destruct (Nat.eqb _ _).
    + rewrite lookup_delete_Some. intros [_ ?]. eauto.
    + rewrite lookup_insert_Some. intros [[<- _]|[_ ?]]; [|eauto].
      by specialize (Hm _ _ Hi' Ha).
Qed.

Lemma wf_handle e s : wf s -> wf (handle e s).
Proof.
  intros W. destruct (passive e) eqn:P.
  - destruct (passive_fields e s P) as (_ & _ & _ & _ & Hi & Ht & Hn).
    destruct W as [Hl Hv Hs Hm].
    split; unfold is_step_timer; rewrite ?Ht, ?Hn, ?Hi; done.
  - destruct e; try discriminate; cbn.
    + unfold fire.
      destruct (timers s !! id) as [[[|f d c] ms]|] eqn:E;
        eauto using wf_step_tick, wf_animateFrame.
    + by apply wf_start.
Qed.

Lemma wf_run es s : wf s -> wf (run es s).
Proof.
  revert s. induction es as [|e es IH]; intros s W; cbn; [done|].
  apply IH, wf_handle, W.
Qed.

Lemma wf_reachable o es : wf (run es (init o)).
Proof. apply wf_run, wf_init. Qed.

(** ** Running and landing *)

Lemma running_spec s :
  running s = true <->
  exists i, simulationInterval s = Some i /\ is_step_timer s i = true.
Proof.
  unfold running. destruct (simulationInterval s) as [i|]; split.
  - eauto.
  - by intros (? & [= <-] & ?).
  - done.
  - by intros (? & [=] & _).
Qed.

(** A timer that does not run [step] leaves the ball, the path and the
    flight timer alone when it comes due. *)
Lemma fire_other s id :
  is_step_timer s id = false ->
  position (fire id s) = position s /\
  velocity (fire id s) = velocity s /\
  pathPoints (fire id s) = pathPoints s /\
  pathGeometry (fire id s) = pathGeometry s /\
  simulationInterval (fire id s) = simulationInterval s /\
  forall i, is_step_timer (fire id s) i = is_step_timer s i.
Proof.
  unfold fire, is_step_timer at 1.
  destruct (timers s !! id) as [[[|f d c] ms]|] eqn:E; [done| |done].
  intros _.
  destruct (animateFrame_rest id f d c s) as (-> & -> & -> & -> & -> & _).
  repeat split. intros i. unfold is_step_timer.
  rewrite animateFrame_timers. destruct (Nat.eqb _ _).
  - rewrite lookup_delete. case_decide as D; [|done]. by rewrite <- D, E.
  - rewrite lookup_insert. case_decide as D; [|done]. by rewrite <- D, E.
Qed.

Lemma running_after_landing s :
  running s = true -> lands s = true -> running (step s) = false.
Proof.
  intros (i & Hi & _)%running_spec L. unfold running, is_step_timer.
  rewrite step_simulationInterval, step_timers, L, Hi.
  rewrite lookup_insert. case_decide; [done|]. by rewrite lookup_delete_eq.
Qed.

Lemma running_after_flight s :
  lands s = false -> running (step s) = running s.
Proof.
  intros L. unfold running, is_step_timer.
  by rewrite step_simulationInterval, step_timers, L.
Qed.

(** From a running state, exactly the ticks that land stop the run. *)
Lemma running_handle s e :
  running s = true ->
  running (handle e s) = negb (is_tick e s && lands s).
Proof.
  intros R. destruct (passive e) eqn:P.
  - destruct (passive_fields e s P) as (_ & _ & _ & _ & Hi & Ht & _).
    unfold running, is_step_timer in *. rewrite Hi, Ht, R.
    by destruct e.
  - destruct e; try discriminate; unfold handle, is_tick.
    + destruct (is_step_timer s id) eqn:T.
      * rewrite (fire_step _ _ T). destruct (lands s) eqn:L.
        -- by apply running_after_landing.
        -- by rewrite running_after_flight.
      * destruct (fire_other s id T) as (_ & _ & _ & _ & Hi & Ht).
        unfold running in *. rewrite Hi.
        destruct (simulationInterval s); [|done]. by rewrite Ht.
    + apply start_running.
Qed.

Lemma running_no_tick es s :
  running s = true -> ticks es s = 0 -> running (run es s) = true.
Proof.
  revert s. induction es as [|e es IH]; intros s R T; cbn in *; [done|].
  destruct (is_tick e s) eqn:E; [done|].
  apply IH; [|done]. by rewrite running_handle, E.
Qed.

(** C2. A run leaves RUNNING for LANDED exactly at a tick whose position
    update puts the ball at height <= 0; and after Start the run is still
    RUNNING as long as no tick has executed. *)
Theorem landing_iff_ground (s : State) (e : Event) :
  (running s = true ->
   (running (handle e s) = false <-> is_tick e s = true /\ lands s = true)) /\
  (forall es, ticks es (start s) = 0 -> running (run es (start s)) = true).
Proof.
  split.
  - intros R. rewrite (running_handle _ _ R).
    rewrite negb_false_iff, andb_true_iff. done.
  - intros es. apply running_no_tick, start_running.
Qed.

(** ** The recorded path *)

Lemma length_recorded es s : List.length (recorded es s) = ticks es s.
Proof.
  revert s. induction es as [|e es IH]; intros s; cbn; [done|].
  rewrite length_app, IH. by destruct (is_tick e s).
Qed.

Lemma handle_tick s e :
  is_tick e s = true -> handle e s = step s.
Proof. destruct e; try discriminate. apply fire_step. Qed.

(** Apart from Start, an event appends to the path the position it found,
    if it is a tick, and nothing otherwise; and only a tick moves the
    ball. *)
Lemma handle_path s e :
  is_start e = false ->
  pathPoints (handle e s) =
    pathPoints s ++ (if is_tick e s then [position s] else []) /\
  (is_tick e s = false -> position (handle e s) = position s) /\
  (is_tick e s = false -> pathGeometry (handle e s) = pathGeometry s).
Proof.
  intros S. destruct (is_tick e s) eqn:T.
  - rewrite (handle_tick _ _ T). by rewrite step_pathPoints.
  - rewrite app_nil_r. destruct (passive e) eqn:P.
    + by destruct (passive_fields e s P) as (-> & _ & -> & -> & _).
    + destruct e; try discriminate. unfold handle.
      by destruct (fire_other s id T) as (-> & _ & -> & -> & _).
Qed.

Lemma pathPoints_run es s :
  no_start es = true ->
  pathPoints (run es s) = pathPoints s ++ recorded es s.
Proof.
  revert s. induction es as [|e es IH]; intros s; cbn.
  - by rewrite app_nil_r.
  - intros [S Hes]%andb_true_iff. apply negb_true_iff in S.
    rewrite IH by done. destruct (handle_path s e S) as (-> & _).
    by rewrite <- app_assoc.
Qed.

(** The first recorded point is where the ball was when the events began. *)
Lemma recorded_head es s :
  no_start es = true ->
  hd_error (recorded es s) =
  if Nat.eqb (ticks es s) 0 then None else Some (position s).
Proof.
  revert s. induction es as [|e es IH]; intros s; cbn; [done|].
  intros [S Hes]%andb_true_iff. apply negb_true_iff in S.
  destruct (is_tick e s) eqn:T; [done|]. cbn.
  rewrite IH by done. destruct (handle_path s e S) as (_ & Hp & _).
  by rewrite Hp.
Qed.

(** Once landed, and until the next Start, nothing ticks and the path is
    frozen. *)
Lemma landed_frozen es s :
  wf s -> running s = false -> no_start es = true ->
  running (run es s) = false /\ ticks es s = 0 /\
  pathPoints (run es s) = pathPoints s /\
  pathGeometry (run es s) = pathGeometry s.
Proof.
  revert s. induction es as [|e es IH]; intros s W R; cbn; [done|].
  intros [S Hes]%andb_true_iff. apply negb_true_iff in S.
  assert (T : is_tick e s = false).
  { destruct e; try done. cbn. destruct (is_step_timer s id) eqn:T; [|done].
    pose proof (wf_step _ W _ T) as Hi. unfold running in R.
    by rewrite Hi, T in R. }
  assert (R' : running (handle e s) = false).
  { destruct (passive e) eqn:P.
    - destruct (passive_fields e s P) as (_ & _ & _ & _ & Hi & Ht & _).
      unfold running, is_step_timer in *. by rewrite Hi, Ht.
    - destruct e; try discriminate.
      destruct (fire_other s id T) as (_ & _ & _ & _ & Hi & Ht).
      unfold running, handle in *. rewrite Hi.
      destruct (simulationInterval s); [|done]. by rewrite Ht. }
  destruct (IH (handle e s) (wf_handle _ _ W) R' Hes) as (-> & -> & -> & ->).
  destruct (handle_path s e S) as (-> & _ & Hg). rewrite (Hg T), T.
  by rewrite app_nil_r.
Qed.

(** A flight that has ended, ended at one landing tick; the published path
    is what was recorded up to and including that tick. *)
Lemma flight_ends es s :
  wf s -> running s = true -> no_start es = true ->
  running (run es s) = false ->
  exists es1 id es2,
    es = es1 ++ Tick id :: es2 /\
    running (run es1 s) = true /\
    is_step_timer (run es1 s) id = true /\
    lands (run es1 s) = true /\
    ticks es s = ticks es1 s + 1 /\
    recorded es s = recorded es1 s ++ [position (run es1 s)] /\
    pathGeometry (run es s) = pathPoints s ++ recorded es s.
Proof.
  revert s. induction es as [|e es IH]; intros s W R; cbn.
  { intros _ R'. by rewrite R in R'. }
  intros [S Hes]%andb_true_iff L. apply negb_true_iff in S.
  destruct (running (handle e s)) eqn:R'.
  - destruct (IH _ (wf_handle e _ W) R' Hes L)
      as (es1 & id & es2 & -> & R1 & T1 & L1 & Ht & Hr & Hg).
    exists (e :: es1), id, es2. cbn. repeat split; try done.
    + rewrite Ht. lia.
    + rewrite Hr. by rewrite <- app_assoc.
    + rewrite Hg. destruct (handle_path s e S) as (-> & _).
      by rewrite <- app_assoc.
  - rewrite (running_handle _ _ R) in R'.
    apply negb_false_iff, andb_true_iff in R' as [T Ld].
    destruct e as [id| | | | | | |]; try discriminate. cbn in T.
    exists [], id, es. cbn. rewrite T. cbn in *.
    rewrite (fire_step _ _ T) in *.
    assert (R' : running (step s) = false) by by apply running_after_landing.
    destruct (landed_frozen es (step s) (wf_step_tick _ W) R' Hes)
      as (_ & -> & _ & ->).
    pose proof (pathPoints_run es (step s) Hes) as Hp.
    destruct (landed_frozen es (step s) (wf_step_tick _ W) R' Hes)
      as (_ & _ & Hq & _).
    rewrite Hq in Hp. apply (f_equal List.length) in Hp.
    rewrite length_app in Hp.
    assert (recorded es (step s) = []) as ->.
    { destruct (recorded es (step s)); [done|]. cbn in Hp. lia. }
    rewrite step_pathGeometry, Ld. done.
Qed.

Lemma run_app es1 es2 s : run (es1 ++ es2) s = run es2 (run es1 s).
Proof. revert s. induction es1 as [|e es1 IH]; intros s; cbn; [done|apply IH]. Qed.

(** C4. When a throw has landed, the published path holds one point more
    than the number of ticks executed before the landing tick: one point
    per executed tick, each the position that tick started from. *)
Theorem path_length_at_landing (o : Options) (es0 es : list Event) :
  let s := start (run es0 (init o)) in
  no_start es = true ->
  running (run es s) = false ->
  exists es1 id es2,
    es = es1 ++ Tick id :: es2 /\
    running (run es1 s) = true /\
    is_step_timer (run es1 s) id = true /\
    running (run (es1 ++ [Tick id]) s) = false /\
    List.length (pathGeometry (run es s)) = ticks es1 s + 1 /\
    ticks es s = ticks es1 s + 1 /\
    pathGeometry (run es s) = recorded es s.
Proof.
  intros s Hes L.
  assert (W : wf s) by apply wf_start, wf_reachable.
  assert (Hp : pathPoints s = []) by apply start_path.
  destruct (flight_ends es s W (start_running _) Hes L)
    as (es1 & id & es2 & E & R1 & T1 & L1 & Ht & Hr & Hg).
  rewrite Hp, app_nil_l in Hg.
  exists es1, id, es2.
  split; [exact E|]. split; [exact R1|]. split; [exact T1|].
  split; [|split; [|split; [exact Ht|exact Hg]]].
  - rewrite run_app. cbn [run handle]. rewrite (fire_step _ _ T1).
    by apply running_after_landing.
  - rewrite Hg, length_recorded. exact Ht.
Qed.


(** C10. In every run the first point put on the path is the origin. *)
Theorem first_point_is_origin (s : State) (es : list Event) :
  no_start es = true ->
  hd_error (pathPoints (run es (start s))) =
  if Nat.eqb (ticks es (start s)) 0 then None else Some (mkV (of_Z 0) (of_Z 0) (of_Z 0)).
Proof.
  intros Hes. rewrite pathPoints_run by done.
  destruct (start_path s) as [-> _]. cbn [app].
  by rewrite recorded_head, start_position.
Qed.

(** ** The camera transition *)

Lemma fires_cons a e es : fires a (e :: es) = fires a [e] + fires a es.
Proof. destruct e; cbn; lia. Qed.

(** Clearing [simulationInterval] and registering a new timer, as [start]
    and a landing do, leaves a live camera transition in place. *)
Lemma replace_keeps s a t x :
  wf s -> timers s !! a = Some t -> callback t <> CbStep ->
  <[next_timer s := x]>
    (match simulationInterval s with
     | Some i => delete i (timers s)
     | None => timers s
     end) !! a = Some t.
Proof.
  intros W Ha Hc. pose proof (wf_live _ W _ _ Ha).
  rewrite lookup_insert_ne by lia.
  destruct (simulationInterval s) as [i|] eqn:Hi; [|done].
  rewrite lookup_delete_ne; [done|]. intros ->.
  by specialize (wf_sim _ W _ _ Hi Ha).
Qed.

Lemma replace_dead s a x :
  a < next_timer s -> timers s !! a = None ->
  <[next_timer s := x]>
    (match simulationInterval s with
     | Some i => delete i (timers s)
     | None => timers s
     end) !! a = None.
Proof.
  intros Hn Ha. rewrite lookup_insert_ne by lia.
  destruct (simulationInterval s) as [i|]; [|done].
  rewrite lookup_delete. by case_decide.
Qed.

(** One event against a live transition timer [a]: it advances [frames] if
    the event is [a] coming due, stopping at 40, and is untouched
    otherwise. *)
Lemma animation_handle s a f d c e :
  wf s -> timers s !! a = Some (animation f d c) ->
  timers (handle e s) !! a =
  if Nat.eqb (fires a [e]) 0 then Some (animation f d c)
  else if Nat.eqb (S f) 40 then None else Some (animation (S f) d c).
Proof.
  intros W Ha. destruct (passive e) eqn:P.
  - destruct (passive_fields e s P) as (_ & _ & _ & _ & _ & -> & _).
    by destruct e.
  - destruct e as [i| | | | | | |]; try discriminate; cbn [handle fires].
    + destruct (Nat.eqb_spec i a) as [->|Hne].
      * change (Nat.eqb (1 + 0) 0) with false. cbn iota.
        rewrite (fire_animation _ _ _ _ _ _ Ha), animateFrame_timers.
        destruct (Nat.eqb (S f) 40).
        -- apply lookup_delete_eq.
        -- apply lookup_insert_eq.
      * change (Nat.eqb (0 + 0) 0) with true. cbn iota.
        unfold fire. destruct (timers s !! i) as [[[|f' d' c'] ms]|] eqn:Hi.
        -- rewrite step_timers. destruct (lands s); [|done].
           by apply replace_keeps.
        -- rewrite animateFrame_timers. destruct (Nat.eqb (S f') 40).
           ++ by rewrite lookup_delete_ne.
           ++ by rewrite lookup_insert_ne.
        -- done.
    + rewrite start_timers. by apply replace_keeps.
Qed.

(** A timer id that has been handed out and is no longer live is never
    live again. *)
Lemma dead_handle s a e :
  a < next_timer s -> timers s !! a = None ->
  a < next_timer (handle e s) /\ timers (handle e s) !! a = None.
Proof.
  intros Hn Ha. destruct (passive e) eqn:P.
  - by destruct (passive_fields e s P) as (_ & _ & _ & _ & _ & -> & ->).
  - destruct e as [i| | | | | | |]; try discriminate; cbn [handle].
    + unfold fire. destruct (timers s !! i) as [[[|f' d' c'] ms]|] eqn:Hi.
      * rewrite step_timers, step_next_timer. destruct (lands s); [|done].
        split; [lia|]. by apply replace_dead.
      * rewrite animateFrame_timers.
        destruct (animateFrame_rest i f' d' c' s) as (_ & _ & _ & _ & _ & ->).
        split; [done|]. destruct (Nat.eqb (S f') 40).
        -- rewrite lookup_delete. by case_decide.
        -- rewrite lookup_insert_ne; [done|]. intros ->. congruence.
      * done.
    + rewrite start_timers, start_next_timer. split; [lia|].
      by apply replace_dead.
Qed.

Lemma dead_run es s a :
  a < next_timer s -> timers s !! a = None -> timers (run es s) !! a = None.
Proof.
  revert s. induction es as [|e es IH]; intros s Hn Ha; cbn; [done|].
  destruct (dead_handle s a e Hn Ha). by apply IH.
Qed.

(** A transition timer is live exactly until it has come due 40 times in
    all, whatever else happens in between. *)
Lemma animation_run es s a f d c :
  wf s -> timers s !! a = Some (animation f d c) -> f < 40 ->
  timers (run es s) !! a =
  if Nat.ltb (f + fires a es) 40
  then Some (animation (f + fires a es) d c) else None.
Proof.
  revert s f. induction es as [|e es IH]; intros s f W Ha Hf.
  - cbn [run fires]. rewrite Nat.add_0_r. destruct (Nat.ltb_spec f 40); [done|lia].
  - rewrite fires_cons. cbn [run].
    pose proof (animation_handle s a f d c e W Ha) as He.
    pose proof (wf_handle e s W) as W'.
    assert (fires a [e] = 0 \/ fires a [e] = 1) as [E|E]
      by (destruct e as [i| | | | | | |]; cbn; try destruct (Nat.eqb i a); lia).
    + rewrite E in *. cbn in He. by apply IH.
    + rewrite E in *. change (Nat.eqb 1 0) with false in He. cbn iota in He.
      destruct (Nat.eqb (S f) 40) eqn:E40;
        [apply Nat.eqb_eq in E40|apply Nat.eqb_neq in E40].
      * assert (Hn : a < next_timer (handle e s)).
        { apply (wf_live _ W) in Ha. destruct (passive e) eqn:P.
          - by destruct (passive_fields e s P) as (_ & _ & _ & _ & _ & _ & ->).
          - destruct e as [i| | | | | | |]; try discriminate; cbn [handle].
            unfold fire.
            destruct (timers s !! i) as [[[|f' d' c'] ms]|]; [| |done].
            + rewrite step_next_timer. destruct (lands s); lia.
            + by destruct (animateFrame_rest i f' d' c' s)
                as (_ & _ & _ & _ & _ & ->). }
        rewrite (dead_run es _ a Hn He).
        destruct (Nat.ltb_spec (f + (1 + fires a es)) 40); [lia|done].
      * rewrite (IH _ (S f)) by (done || lia).
        by replace (S f + fires a es) with (f + (1 + fires a es)) by lia.
Qed.

(** The timer a landing tick registers, followed through whatever happens
    next. *)
Lemma transition_timer s es :
  wf s -> lands s = true ->
  timers (run es (step s)) !! next_timer s =
  if Nat.ltb (fires (next_timer s) es) 40
  then Some (animation (fires (next_timer s) es)
                       (length (position (step s)))
                       (multiplyScalar (position (step s)) (dec 5 1)))
  else None.
Proof.
  intros W L.
  rewrite (animation_run es (step s) (next_timer s) 0
             (length (position (step s)))
             (multiplyScalar (position (step s)) (dec 5 1))); [done| | |lia].
  - by apply wf_step_tick.
  - by rewrite step_timers, L, lookup_insert_eq.
Qed.

(** C5. The transition a landing begins: orbit control goes off, a 16 ms
    timer is registered, that timer stays live until it has run 40 times,
    and its 40th run clears it and turns orbit control back on; nothing
    of this depends on where the ball landed. *)
Theorem camera_transition_40_steps (o : Options) (es0 : list Event) (id : nat) :
  let s := run es0 (init o) in
  is_step_timer s id = true ->
  lands s = true ->
  let l := fire id s in
  let a := next_timer s in
  enabled l = false /\
  timers l !! a =
    Some {| callback := CbAnimate 0 (length (position l))
                                    (multiplyScalar (position l) (dec 5 1));
            delay := 16 |} /\
  forall es,
    (timers (run es l) !! a =
       if Nat.ltb (fires a es) 40
       then Some {| callback := CbAnimate (fires a es) (length (position l))
                                   (multiplyScalar (position l) (dec 5 1));
                    delay := 16 |}
       else None) /\
    (fires a es = 39 ->
     enabled (fire a (run es l)) = true /\
     timers (fire a (run es l)) !! a = None).
Proof.
  intros s T L l a. subst l. rewrite (fire_step _ _ T).
  assert (W : wf s) by apply wf_reachable.
  split; [by rewrite step_enabled, L|].
  split; [by rewrite step_timers, L, lookup_insert_eq|].
  intros es. pose proof (transition_timer s es W L) as Ht.
  split; [done|]. intros E. fold a in Ht. rewrite E in Ht. cbn [Nat.ltb Nat.leb] in Ht.
  rewrite (fire_animation _ _ _ _ _ _ Ht).
  rewrite animateFrame_enabled, animateFrame_timers. cbn [Nat.eqb].
  by rewrite lookup_delete_eq.
Qed.

(** What a run of a live transition timer hands to
    [orbitControls.update()], in the script's own operations. *)
Lemma transition_view (o : Options) (es0 es : list Event) (id : nat) :
  let s := run es0 (init o) in
  is_step_timer s id = true ->
  lands s = true ->
  let l := fire id s in
  let a := next_timer s in
  let s' := run es l in
  fires a es < 40 ->
  let dist := length (position l) in
  let center := multiplyScalar (position l) (dec 5 1) in
  let tgt := lerp (target (view s')) center (dec 1 1) in
  view (fire a s') =
  orbitControls_update
    {| target := tgt;
       camera_position := mkV (vx tgt) (nmax dist (of_Z 2)) (vz tgt);
       camera_rotation := mkV (of_Z 0) (- of_Z 1)%num (of_Z 1) |}.
Proof.
  intros s T L l a s' F dist center tgt. subst l s' dist center tgt.
  rewrite (fire_step _ _ T) in *.
  pose proof (transition_timer s es (wf_reachable _ _) L) as Ht.
  fold a in Ht. destruct (Nat.ltb_spec (fires a es) 40); [|lia].
  by rewrite (fire_animation _ _ _ _ _ _ Ht), animateFrame_view.
Qed.

(** C8. In every reachable state at most one timer runs [step]; Start
    clears the timer in [simulationInterval] and leaves exactly its new
    timer running [step]; and every live camera transition timer is still
    live after Start, next to the new flight timer. *)
Theorem one_flight_timer (o : Options) (es : list Event) :
  let s := run es (init o) in
  (forall i j, is_step_timer s i = true -> is_step_timer s j = true -> i = j) /\
  (forall i, simulationInterval s = Some i -> timers (start s) !! i = None) /\
  (forall i, is_step_timer (start s) i = true <-> i = next_timer s) /\
  (forall a t, timers s !! a = Some t -> callback t <> CbStep ->
               timers (start s) !! a = Some t /\ a <> next_timer s).
Proof.
  intros s. assert (W : wf s) by apply wf_reachable.
  assert (N0 : is_step_timer (start s) (next_timer s) = true).
  { unfold is_step_timer. by rewrite start_timers, lookup_insert_eq. }
  repeat split.
  - intros i j Hi Hj. apply (wf_step _ W) in Hi, Hj. congruence.
  - intros i Hi. rewrite start_timers, Hi.
    pose proof (wf_var _ W _ Hi). rewrite lookup_insert_ne by lia.
    apply lookup_delete_eq.
  - intros Hi. apply (wf_step _ (wf_start _ W)) in Hi.
    rewrite start_simulationInterval in Hi. congruence.
  - by intros ->.
  - rewrite start_timers. by apply replace_keeps.
  - match goal with Ha : timers s !! _ = Some _ |- _ =>
      pose proof (wf_live _ W _ _ Ha) end. lia.
Qed.

End Properties.

(** * binary64: the tick at rest, and runs of the script *)

Section Binary64Facts.

Context {Controls : @OrbitControls Binary64}.

Lemma mul_zero_l z x :
  B64.is_zero z = true -> B64.finite x = true ->
  B64.is_zero (B64.mul z x) = true.
Proof. by destruct z, x. Qed.

Lemma mul_zero_r x z :
  B64.finite x = true -> B64.is_zero z = true ->
  B64.is_zero (B64.mul x z) = true.
Proof. by destruct z, x. Qed.

Lemma div_zero_two z :
  B64.is_zero z = true -> B64.is_zero (B64.div z (B64.of_Z 2)) = true.
Proof. by destruct z. Qed.

Lemma opp_zero z : B64.is_zero z = true -> B64.is_zero (B64.opp z) = true.
Proof. by destruct z. Qed.

Lemma zero_finite z : B64.is_zero z = true -> B64.finite z = true.
Proof. by destruct z. Qed.

Lemma mul_zero_one z :
  B64.is_zero z = true -> B64.mul z (B64.div (B64.of_Z 1) (B64.of_Z 1)) = z.
Proof. by destruct z as [[|]| | |]. Qed.

Lemma add_zeros z z' :
  B64.is_zero z = true -> B64.is_zero z' = true ->
  B64.is_zero (B64.add z z') = true.
Proof. by destruct z as [[|]| | |], z' as [[|]| | |]. Qed.

(** +0 absorbs a zero of either sign, on either side. *)
Lemma add_plus_zero z :
  B64.is_zero z = true ->
  B64.add z (S754_zero false) = S754_zero false /\
  B64.add (S754_zero false) z = S754_zero false.
Proof. by destruct z as [[|]| | |]. Qed.

Lemma add_finite_zero s m e z :
  B64.is_zero z = true ->
  B64.add (S754_finite s m e) z = S754_finite s m e /\
  B64.add z (S754_finite s m e) = S754_finite s m e.
Proof. by destruct z. Qed.

(** *** The tick at rest *)

Lemma rest_lengthSq (v : @Vector3 Binary64) :
  B64.is_zero (vx v) = true ->
  B64.is_zero (vy v) = true ->
  B64.is_zero (vz v) = true ->
  B64.is_zero (lengthSq v) = true.
Proof.
  intros Zx Zy Zz. unfold lengthSq. as_b64.
  repeat apply add_zeros; by apply mul_zero_l, zero_finite.
Qed.

Lemma rest_length (v : @Vector3 Binary64) :
  B64.is_zero (vx v) = true ->
  B64.is_zero (vy v) = true ->
  B64.is_zero (vz v) = true ->
  or_else (length v) (of_Z 1) = of_Z 1.
Proof.
  intros Zx Zy Zz. pose proof (rest_lengthSq v Zx Zy Zz) as Zl.
  unfold or_else, length. revert Zl. by destruct (lengthSq v).
Qed.

Lemma rest_normalize (v : @Vector3 Binary64) :
  B64.is_zero (vx v) = true ->
  B64.is_zero (vy v) = true ->
  B64.is_zero (vz v) = true ->
  normalize v = v.
Proof.
  intros Zx Zy Zz. unfold normalize, divideScalar, multiplyScalar.
  rewrite rest_length by done. as_b64.
  rewrite !mul_zero_one by done. by destruct v.
Qed.

Lemma rest_drag (o : @Options Binary64) (v : @Vector3 Binary64) :
  B64.is_zero (vx v) = true ->
  B64.is_zero (vy v) = true ->
  B64.is_zero (vz v) = true ->
  B64.finite (rho o) = true ->
  B64.finite (C_d o) = true ->
  B64.finite (area o) = true ->
  B64.finite (mass o) = true ->
  B64.is_zero (vx (a_drag o v)) = true /\
  B64.is_zero (vy (a_drag o v)) = true /\
  B64.is_zero (vz (a_drag o v)) = true.
Proof.
  intros Zx Zy Zz Fr Fc Fa Fm.
  pose proof (rest_lengthSq v Zx Zy Zz) as Zl.
  assert (Zk : B64.is_zero
                 (rho o * lengthSq v * C_d o * area o / of_Z 2)%num = true).
  { as_b64. apply div_zero_two.
    repeat (apply mul_zero_l; [|done]). by apply mul_zero_r. }
  unfold a_drag, f_drag. rewrite rest_normalize by done.
  unfold multiplyScalar, negate. cbn [vx vy vz]. as_b64.
  repeat split; (apply mul_zero_l; [|done]);
    (apply mul_zero_l; [by apply opp_zero|by apply zero_finite]).
Qed.

Lemma rest_velocity (s : @State Binary64) :
  let v := velocity s in
  let o := options s in
  B64.is_zero (vx v) = true ->
  B64.is_zero (vy v) = true ->
  B64.is_zero (vz v) = true ->
  B64.finite (rho o) = true ->
  B64.finite (C_d o) = true ->
  B64.finite (area o) = true ->
  B64.finite (mass o) = true ->
  velocity (step s) = @mkV Binary64 (S754_zero false) g_dt (S754_zero false).
Proof.
  intros v o Zx Zy Zz Fr Fc Fa Fm.
  destruct (rest_drag o v Zx Zy Zz Fr Fc Fa Fm) as (Dx & Dy & Dz).
  rewrite step_velocity. fold v o. unfold addScaledVector.
  cbn [vx vy vz]. as_b64.
  assert (Fd : B64.finite (B64.div (B64.of_Z dt) (B64.of_Z 1000)) = true)
    by by vm_compute.
  pose proof (mul_zero_l _ _ Dx Fd) as Mx.
  pose proof (mul_zero_l _ _ Dy Fd) as My.
  pose proof (mul_zero_l _ _ Dz Fd) as Mz.
  change (B64.mul (B64.of_Z 0) (B64.div (B64.of_Z dt) (B64.of_Z 1000)))
    with (S754_zero false).
  destruct (add_plus_zero _ Zx) as [-> _].
  destruct (add_plus_zero _ Zz) as [-> _].
  destruct (add_plus_zero _ Mx) as [_ ->].
  destruct (add_plus_zero _ Mz) as [_ ->].
  f_equal.
  change (B64.mul (B64.opp (@dec Binary64 98 1))
                  (B64.div (B64.of_Z dt) (B64.of_Z 1000)))
    with g_dt.
  assert (G : g_dt = S754_finite true 5649315372573551 (-55)) by by vm_compute.
  rewrite G.
  destruct (add_finite_zero true 5649315372573551 (-55) _ Zy) as [_ ->].
  by destruct (add_finite_zero true 5649315372573551 (-55) _ My) as [-> _].
Qed.

(** C9, amended. A tick from rest with finite rho, C_d, area and mass: the
    length of the velocity is falsy, so the velocity is divided by 1 and
    normalizes to itself; the drag term is a vector of zeros; the new
    velocity is (0, -9.8 * 0.016, 0), gravity alone, with no NaN in it;
    and the position advances by that velocity. *)
Theorem tick_at_rest (s : @State Binary64) :
  let v := velocity s in
  let o := options s in
  B64.is_zero (vx v) = true ->
  B64.is_zero (vy v) = true ->
  B64.is_zero (vz v) = true ->
  B64.finite (rho o) = true ->
  B64.finite (C_d o) = true ->
  B64.finite (area o) = true ->
  B64.finite (mass o) = true ->
  or_else (length v) (of_Z 1) = of_Z 1 /\
  normalize v = v /\
  (B64.is_zero (vx (a_drag o v)) = true /\
   B64.is_zero (vy (a_drag o v)) = true /\
   B64.is_zero (vz (a_drag o v)) = true) /\
  velocity (step s) = @mkV Binary64 (S754_zero false) g_dt (S754_zero false) /\
  (B64.is_nan (vx (velocity (step s))) = false /\
   B64.is_nan (vy (velocity (step s))) = false /\
   B64.is_nan (vz (velocity (step s))) = false) /\
  position (step s) =
    addScaledVector (position s) (@mkV Binary64 (S754_zero false) g_dt (S754_zero false))
                    (of_Z dt / of_Z 1000)%num.
Proof.
  intros v o Zx Zy Zz Fr Fc Fa Fm.
  pose proof (rest_velocity s Zx Zy Zz Fr Fc Fa Fm) as V.
  split; [by apply rest_length|].
  split; [by apply rest_normalize|].
  split; [by apply rest_drag|].
  split; [exact V|].
  split; [by rewrite V|].
  by rewrite step_position, V.
Qed.

(** ** The arithmetic of a tick and of a transition step, spelled out *)

(** C1, amended. What a tick does to the velocity and the position, each
    operation rounded to binary64 as the script performs it: gravity times
    dt is added to the old velocity first, then drag times dt, with
    dt = 16 / 1000 and gravity = (0, -9.8, 0); the drag is the old
    velocity, scaled by 1 / (its length, or 1 if that is 0 or NaN), with
    its sign turned, times rho |v|^2 C_d area / 2, times the mass; the new
    position is the old one plus the new velocity times dt. *)
Theorem tick_update (s : @State Binary64) :
  let v := velocity s in
  let p := position s in
  let o := options s in
  let dts := S754_finite false 4611686018427388 (-58) in
  let g := S754_finite true 5516909543528858 (-49) in
  let one := S754_finite false 4503599627370496 (-52) in
  let two := S754_finite false 4503599627370496 (-51) in
  let lsq := (vx v * vx v + vy v * vy v + vz v * vz v)%sf in
  let len := SFsqrt 53 1024 lsq in
  let inv := (one / match len with
                    | S754_zero _ | S754_nan => one
                    | _ => len
                    end)%sf in
  let k := (rho o * lsq * C_d o * area o / two)%sf in
  let drag c := ((- (c * inv)) * k * mass o)%sf in
  let v' := velocity (step s) in
  v' = mkV (vx v + S754_zero false * dts + drag (vx v) * dts)%sf
           (vy v + g * dts + drag (vy v) * dts)%sf
           (vz v + S754_zero false * dts + drag (vz v) * dts)%sf /\
  position (step s) =
    mkV (vx p + vx v' * dts)%sf (vy p + vy v' * dts)%sf (vz p + vz v' * dts)%sf.
Proof.
  cbv zeta. rewrite step_position, step_velocity.
  unfold addScaledVector, a_drag, f_drag, multiplyScalar, negate, normalize,
    divideScalar, multiplyScalar, or_else, length, lengthSq.
  cbn [vx vy vz]. as_b64.
  change (B64.div (B64.of_Z dt) (B64.of_Z 1000))
    with (S754_finite false 4611686018427388 (-58)).
  change (B64.opp (@dec Binary64 98 1))
    with (S754_finite true 5516909543528858 (-49)).
  change (B64.of_Z 0) with (S754_zero false).
  change (B64.of_Z 1) with (S754_finite false 4503599627370496 (-52)).
  change (B64.of_Z 2) with (S754_finite false 4503599627370496 (-51)).
  unfold B64.add, B64.mul, B64.div, B64.opp, B64.sqrt.
  split; [|reflexivity].
  by destruct (SFsqrt 53 1024 _).
Qed.

(** C6. Each run of the transition timer moves every coordinate x of the
    orbit target to x + (c - x) * 0.1, with c half the landing position's
    coordinate; puts the camera at the target's new x and z and at the
    height 2 if dist < 2, dist otherwise (NaN if dist is NaN), with dist
    the landing position's distance from the origin; and sets the camera's
    rotation to (0, -1, 1); [orbitControls.update()] then sees that
    view. *)
Theorem transition_step_view (o : @Options Binary64)
    (es0 es : list (@Event Binary64)) (id : nat) :
  let s := run es0 (init o) in
  is_step_timer s id = true ->
  lands s = true ->
  let l := fire id s in
  let a := next_timer s in
  let s' := run es l in
  fires a es < 40 ->
  let p := position l in
  let t := target (view s') in
  let half := S754_finite false 4503599627370496 (-53) in
  let tenth := S754_finite false 7205759403792794 (-56) in
  let one := S754_finite false 4503599627370496 (-52) in
  let two := S754_finite false 4503599627370496 (-51) in
  let dist := SFsqrt 53 1024 (vx p * vx p + vy p * vy p + vz p * vz p)%sf in
  let height := match SFcompare dist two with
                | Some Lt => two
                | Some _ => dist
                | None => S754_nan
                end in
  let toward c x := (x + (c * half - x) * tenth)%sf in
  view (fire a s') =
  orbitControls_update
    {| target := mkV (toward (vx p) (vx t)) (toward (vy p) (vy t))
                     (toward (vz p) (vz t));
       camera_position := mkV (toward (vx p) (vx t)) height
                              (toward (vz p) (vz t));
       camera_rotation := mkV (S754_zero false) (- one)%sf one |}.
Proof.
  intros s T L l a s' F. cbv zeta.
  pose proof (transition_view o es0 es id T L F) as V. cbv zeta in V.
  fold s l a s' in V. rewrite V.
  unfold lerp, multiplyScalar, length, lengthSq. cbn [vx vy vz].
  change (@dec Binary64 5 1) with (S754_finite false 4503599627370496 (-53)).
  change (@dec Binary64 1 1) with (S754_finite false 7205759403792794 (-56)).
  change (@of_Z Binary64 0) with (S754_zero false).
  change (@of_Z Binary64 1) with (S754_finite false 4503599627370496 (-52)).
  change (@of_Z Binary64 2) with (S754_finite false 4503599627370496 (-51)).
  change (@nmax Binary64) with B64.max. change (@nsub Binary64) with B64.sub.
  as_b64. unfold B64.max, B64.add, B64.sub, B64.mul, B64.opp, B64.sqrt.
  do 2 f_equal. f_equal.
  destruct (SFcompare _ _) as [[| |]|]; try reflexivity.
  by destruct (SFsqrt 53 1024 _).
Qed.

End Binary64Facts.

(** * Runs of the script on binary64 *)

Example thrown_velocity :
  velocity thrown = @mkV Binary64 (of_Z 0) (of_Z 10) (of_Z 0).
Proof. reflexivity. Qed.

(** Thrown straight up at 10 m/s, the ball is in the air for 126 ticks and
    lands on the 127th. *)
Example thrown_flight :
  running (run (repeat (Tick 1) 126) thrown) = true /\
  running (run (repeat (Tick 1) 127) thrown) = false.
Proof. by_vm. Qed.

(** C1 as stated fails on binary64.  In the first tick of the throw
    straight up at 10 m/s the script adds gravity and drag to the velocity
    one after the other, and the sum so rounded is one unit in the last
    place below v + dt (gravity + drag) evaluated as the claim writes it.
    With the speed set to 1e200 the old velocity and all parameters are
    finite, the square of the speed overflows, and the new velocity is
    NaN. *)
Lemma tick_update_not_as_claimed :
  velocity thrown =
    @mkV Binary64 (S754_zero false) (S754_finite false 5629499534213120 (-49))
                  (S754_zero false) /\
  vy (velocity (step thrown)) = S754_finite false 5541227899189479 (-49) /\
  vy (claimed_velocity (options thrown) (velocity thrown)) =
    S754_finite false 5541227899189480 (-49) /\
  velocity (step thrown) <>
    claimed_velocity (options thrown) (velocity thrown) /\
  velocity thrown_fast =
    @mkV Binary64 (S754_zero false) (S754_finite false 5883593420661338 612)
                  (S754_zero false) /\
  B64.is_nan (vy (velocity (step thrown_fast))) = true.
Proof.
  split; [reflexivity|]. split; [by_vm|]. split; [by_vm|].
  split; [|split; [reflexivity|by_vm]].
  intros H. apply (f_equal (@vy Binary64)) in H.
  assert (A : vy (velocity (step thrown)) =
              S754_finite false 5541227899189479 (-49)) by by_vm.
  assert (B : vy (claimed_velocity (options thrown) (velocity thrown)) =
              S754_finite false 5541227899189480 (-49)) by by_vm.
  rewrite A, B in H. discriminate H.
Qed.

(** C3, at the state the script loads in: the handle sits on the origin, so
    the direction [render] leaves is the zero vector, and Start sets a
    velocity of length 0 although the speed is 10. *)
Theorem start_without_aim (Controls : @OrbitControls Binary64) :
  let s0 : @State Binary64 := @init Binary64 Controls options_init in
  let s := start s0 in
  controller s0 = mkV (of_Z 0) (of_Z 0) (of_Z 0) /\
  direction s0 = mkV (of_Z 0) (of_Z 0) (of_Z 0) /\
  velocity s = mkV (of_Z 0) (of_Z 0) (of_Z 0) /\
  length (velocity s) = of_Z 0 /\
  speed (options s) = of_Z 10 /\
  position s = mkV (of_Z 0) (of_Z 0) (of_Z 0) /\
  pathPoints s = [] /\ pathGeometry s = [].
Proof. repeat split. Qed.

(** The throw straight up: 127 ticks, 127 points. *)
Lemma path_length_at_landing_witness :
  let s : @State Binary64 := start (run aim_up (init options_init)) in
  let es : list (@Event Binary64) := repeat (Tick 1) 127 in
  no_start es = true /\
  running (run es s) = false /\
  exists es1 id es2,
    es = es1 ++ Tick id :: es2 /\
    running (run es1 s) = true /\
    is_step_timer (run es1 s) id = true /\
    running (run (es1 ++ [Tick id]) s) = false /\
    List.length (pathGeometry (run es s)) = ticks es1 s + 1 /\
    ticks es s = ticks es1 s + 1 /\
    pathGeometry (run es s) = recorded es s.
Proof.
  split; [by_vm|]. split; [by_vm|].
  apply (path_length_at_landing options_init aim_up (repeat (Tick 1) 127));
    by_vm.
Defined.

(** The transition begun by the landing of the throw straight up. *)
Lemma camera_transition_40_steps_witness :
  let s : @State Binary64 := run before_landing (init options_init) in
  is_step_timer s 1 = true /\
  lands s = true /\
  let l := fire 1 s in
  let a := next_timer s in
  enabled l = false /\
  timers l !! a =
    Some {| callback := CbAnimate 0 (length (position l))
                                    (multiplyScalar (position l) (dec 5 1));
            delay := 16 |} /\
  forall es,
    (timers (run es l) !! a =
       if Nat.ltb (fires a es) 40
       then Some {| callback := CbAnimate (fires a es) (length (position l))
                                   (multiplyScalar (position l) (dec 5 1));
                    delay := 16 |}
       else None) /\
    (fires a es = 39 ->
     enabled (fire a (run es l)) = true /\
     timers (fire a (run es l)) !! a = None).
Proof.
  split; [by_vm|]. split; [by_vm|].
  apply (camera_transition_40_steps options_init before_landing 1); by_vm.
Defined.

(** The fourth run of that transition's timer. *)
Lemma transition_step_view_witness :
  let s : @State Binary64 := run before_landing (init options_init) in
  let es : list (@Event Binary64) := [Tick 2; Tick 2; Tick 2] in
  is_step_timer s 1 = true /\
  lands s = true /\
  fires (next_timer s) es < 40 /\
  let l := fire 1 s in
  let a := next_timer s in
  let s' := run es l in
  let p := position l in
  let t := target (view s') in
  let half := S754_finite false 4503599627370496 (-53) in
  let tenth := S754_finite false 7205759403792794 (-56) in
  let one := S754_finite false 4503599627370496 (-52) in
  let two := S754_finite false 4503599627370496 (-51) in
  let dist := SFsqrt 53 1024 (vx p * vx p + vy p * vy p + vz p * vz p)%sf in
  let height := match SFcompare dist two with
                | Some Lt => two
                | Some _ => dist
                | None => S754_nan
                end in
  let toward c x := (x + (c * half - x) * tenth)%sf in
  view (fire a s') =
  orbitControls_update
    {| target := mkV (toward (vx p) (vx t)) (toward (vy p) (vy t))
                     (toward (vz p) (vz t));
       camera_position := mkV (toward (vx p) (vx t)) height
                              (toward (vz p) (vz t));
       camera_rotation := mkV (S754_zero false) (- one)%sf one |}.
Proof.
  split; [by_vm|]. split; [by_vm|].
  assert (F : @fires Binary64
                 (next_timer (run before_landing (init options_init)))
                 [Tick 2; Tick 2; Tick 2] < 40)
    by (vm_compute; lia).
  split; [exact F|].
  apply (transition_step_view options_init before_landing
           [Tick 2; Tick 2; Tick 2] 1); [by_vm|by_vm|exact F].
Defined.


(** Three ticks into the throw straight up. *)
Lemma first_point_is_origin_witness :
  let s : @State Binary64 := run aim_up (init options_init) in
  let es : list (@Event Binary64) := repeat (Tick 1) 3 in
  no_start es = true /\
  hd_error (pathPoints (run es (start s))) =
  if Nat.eqb (ticks es (start s)) 0
  then None else Some (mkV (of_Z 0) (of_Z 0) (of_Z 0)).
Proof.
  split; [by_vm|].
  apply (first_point_is_origin (run aim_up (init options_init))
           (repeat (Tick 1) 3)); by_vm.
Defined.

(** The first tick after Start with the handle left on the origin. *)
Lemma tick_at_rest_witness :
  let s : @State Binary64 := start (init options_init) in
  let v := velocity s in
  let o := options s in
  (B64.is_zero (vx v) = true /\ B64.is_zero (vy v) = true /\
   B64.is_zero (vz v) = true /\ B64.finite (rho o) = true /\
   B64.finite (C_d o) = true /\ B64.finite (area o) = true /\
   B64.finite (mass o) = true) /\
  or_else (length v) (of_Z 1) = of_Z 1 /\
  normalize v = v /\
  (B64.is_zero (vx (a_drag o v)) = true /\
   B64.is_zero (vy (a_drag o v)) = true /\
   B64.is_zero (vz (a_drag o v)) = true) /\
  velocity (step s) = @mkV Binary64 (S754_zero false) g_dt (S754_zero false) /\
  (B64.is_nan (vx (velocity (step s))) = false /\
   B64.is_nan (vy (velocity (step s))) = false /\
   B64.is_nan (vz (velocity (step s))) = false) /\
  position (step s) =
    addScaledVector (position s)
                    (@mkV Binary64 (S754_zero false) g_dt (S754_zero false))
                    (of_Z dt / of_Z 1000)%num.
Proof.
  split; [by_vm|].
  apply (tick_at_rest (start (init options_init))); by_vm.
Defined.

(** C9 as stated, without a bound on the parameters, fails: with rho set
    to Infinity in the panel and the ball at rest, Infinity * 0 is NaN,
    and the tick leaves NaN in the drag term, the velocity and the
    position. *)
Lemma tick_at_rest_infinite_rho :
  let s : @State Binary64 :=
    run [@Edit Binary64 Frho (S754_infinity false); ClickStart]
        (init options_init) in
  (B64.is_zero (vx (velocity s)) = true /\
   B64.is_zero (vy (velocity s)) = true /\
   B64.is_zero (vz (velocity s)) = true) /\
  normalize (velocity s) = velocity s /\
  B64.is_nan (vy (a_drag (options s) (velocity s))) = true /\
  B64.is_nan (vy (velocity (step s))) = true /\
  B64.is_nan (vy (position (step s))) = true.
Proof.
  cbv zeta. split; [by_vm|]. split; [reflexivity|]. by_vm.
Qed.

(** A throw begun while a camera transition is running: the transition's
    timer (2) and the new flight's timer (3) are live side by side. *)
Example transition_beside_new_flight :
  let s : @State Binary64 :=
    run [ClickStart; Tick 1; Tick 2; ClickStart] (init options_init) in
  is_step_timer s 3 = true /\
  running s = true /\
  enabled s = false /\
  match timers s !! 2 with
  | Some {| callback := CbAnimate frames _ _ |} => frames
  | _ => 0
  end = 1 /\
  List.length (map_to_list (timers s)) = 2.
Proof. by_vm. Qed.

(** The whole transition, run without interruption: 39 runs leave the
    timer live and orbit control off; the 40th clears it and turns orbit
    control on. *)
Example transition_in_full :
  let l : @State Binary64 := run [ClickStart; Tick 1] (init options_init) in
  enabled l = false /\
  enabled (run (repeat (Tick 2) 39) l) = false /\
  List.length (map_to_list (timers (run (repeat (Tick 2) 39) l))) = 1 /\
  enabled (run (repeat (Tick 2) 40) l) = true /\
  List.length (map_to_list (timers (run (repeat (Tick 2) 40) l))) = 0.
Proof. by_vm. Qed.

(** The first run of the transition after two landings.  The throw
    straight up comes down at y = -0.0716, which is 0.0716 from the origin:
    the target moves from there to y = -0.0680, a tenth of the way to
    -0.0358, and the camera is put at the height 2.  The throw at 45 degrees
    comes down 10.18 from the origin: the target moves from x = 10.18 to
    9.67, a tenth of the way to 5.09, and the camera is put at the height
    10.18. *)
Example transition_first_run :
  let up : @State Binary64 := run (before_landing ++ [Tick 1]) loaded in
  let aside : @State Binary64 := run thrown_aside loaded in
  (running up = false /\
   vy (position up) = S754_finite true 5158669590599018 (-56) /\
   vy (target (view up)) = S754_finite true 5158669590599018 (-56) /\
   vy (target (view (fire 2 up))) = S754_finite true 4900736111069067 (-56) /\
   vy (camera_position (view (fire 2 up))) =
     S754_finite false 4503599627370496 (-51)) /\
  (running aside = false /\
   vx (position aside) = S754_finite false 5732105703398218 (-49) /\
   length (position aside) = S754_finite false 5732335752396674 (-49) /\
   vx (target (view (fire 2 aside))) =
     S754_finite false 5445500418228307 (-49) /\
   vx (camera_position (view (fire 2 aside))) =
     S754_finite false 5445500418228307 (-49) /\
   vy (camera_position (view (fire 2 aside))) =
     S754_finite false 5732335752396674 (-49)).
Proof. by_vm. Qed.

(** * The same script on the machine's doubles

    Run on primitive floats, the script records the same path as on
    [Binary64]. *)

Module HardwareChecks.

Import PrimFloat FloatOps Hardware.

#[local] Set Warnings "-inexact-float".

Example literals :
  Prim2SF 9.8%float = @dec Binary64 98 1 /\
  Prim2SF 0.1%float = @dec Binary64 1 1 /\
  Prim2SF 0.5%float = @dec Binary64 5 1 /\
  Prim2SF 1.45e-3%float = @dec Binary64 145 5 /\
  Prim2SF 3.141592653589793%float = B64.PI.
Proof. by_vm. Qed.

(** The doubles written out in the statements above, as the processor
    reads the literals. *)
Example literal_doubles :
  Prim2SF 0.016%float = S754_finite false 4611686018427388 (-58) /\
  Prim2SF (-9.8)%float = S754_finite true 5516909543528858 (-49) /\
  Prim2SF 0.1%float = S754_finite false 7205759403792794 (-56) /\
  Prim2SF 0.5%float = S754_finite false 4503599627370496 (-53) /\
  Prim2SF 1%float = S754_finite false 4503599627370496 (-52) /\
  Prim2SF 2%float = S754_finite false 4503599627370496 (-51) /\
  Prim2SF 10%float = S754_finite false 5629499534213120 (-49) /\
  Prim2SF (16 / 1000)%float = S754_finite false 4611686018427388 (-58) /\
  Prim2SF (-9.8 * 0.016)%float = S754_finite true 5649315372573551 (-55) /\
  Prim2SF (-9.8 * 0.016 * 0.016)%float =
    S754_finite true 5784898941515316 (-61).
Proof. by_vm. Qed.

Example same_flight :
  map to_spec (pathGeometry (flight Native hold 127)) =
  pathGeometry (flight Binary64 still 127) /\
  List.length (pathGeometry (flight Binary64 still 127)) = 127.
Proof. by_vm. Qed.

End HardwareChecks.

(** * Further properties of the script *)

Section FurtherProperties.

Context {N : Number} {Controls : OrbitControls}.

(** ** Between flights *)

(** Without a tick and without Start, the ball keeps its position and
    velocity. *)
Lemma still_without_ticks es s :
  no_start es = true -> ticks es s = 0 ->
  position (run es s) = position s /\ velocity (run es s) = velocity s.
Proof.
  revert s. induction es as [|e es IH]; intros s; cbn [run ticks no_start forallb];
    [done|].
  intros [S Hes]%andb_true_iff T. apply negb_true_iff in S.
  destruct (is_tick e s) eqn:E; [done|].
  destruct (IH (handle e s) Hes T) as [-> ->].
  destruct (passive e) eqn:P.
  - by destruct (passive_fields e s P) as (-> & -> & _).
  - destruct e; try discriminate. unfold handle.
    by destruct (fire_other s id E) as (-> & -> & _).
Qed.

(** X1. While no flight is running (before the first Start, or after a
    landing) and until Start is pressed, the ball does not move and the
    path, recorded and published, does not change, whatever timers come
    due and whatever the user does. *)
Theorem nothing_moves_between_flights (o : Options) (es0 es : list Event) :
  let s := run es0 (init o) in
  running s = false ->
  no_start es = true ->
  running (run es s) = false /\
  position (run es s) = position s /\
  velocity (run es s) = velocity s /\
  pathPoints (run es s) = pathPoints s /\
  pathGeometry (run es s) = pathGeometry s.
Proof.
  intros s R Hes.
  destruct (landed_frozen es s (wf_reachable _ _) R Hes) as (R' & T & Hp & Hg).
  destruct (still_without_ticks es s Hes T) as [Hx Hv].
  done.
Qed.

(** ** The points of a flight *)



(** While a flight runs, the published path is as Start left it. *)
Lemma flight_unpublished es s :
  wf s -> running s = true -> no_start es = true ->
  running (run es s) = true -> pathGeometry (run es s) = pathGeometry s.
Proof.
  revert s. induction es as [|e es IH]; intros s W R;
    cbn [run no_start forallb]; [done|].
  intros [S Hes]%andb_true_iff R'. apply negb_true_iff in S.
  destruct (running (handle e s)) eqn:Rh.
  - rewrite (IH _ (wf_handle _ _ W) Rh Hes R').
    rewrite (running_handle _ _ R) in Rh.
    destruct (is_tick e s) eqn:T.
    + rewrite (handle_tick _ _ T), step_pathGeometry.
      by destruct (lands s).
    + by destruct (handle_path s e S) as (_ & _ & ->).
  - destruct (landed_frozen es _ (wf_handle e _ W) Rh Hes) as (R'' & _).
    congruence.
Qed.

(** X3. The path is published only by a landing: from Start until the
    throw lands, the published path stays empty while the recorded one
    grows by a point per tick. *)
Theorem path_unpublished_in_flight (o : Options) (es0 es : list Event) :
  let s := start (run es0 (init o)) in
  no_start es = true ->
  running (run es s) = true ->
  pathGeometry (run es s) = [] /\
  List.length (pathPoints (run es s)) = ticks es s.
Proof.
  intros s Hes R.
  assert (W : wf s) by apply wf_start, wf_reachable.
  rewrite (flight_unpublished es s W (start_running _) Hes R).
  rewrite pathPoints_run by done.
  destruct (start_path (run es0 (init o))) as [Hp Hg].
  change (start (run es0 (init o))) with s in Hp, Hg.
  by rewrite Hg, Hp, app_nil_l, length_recorded.
Qed.

(** ** Timers *)

(** Looking a timer up after [simulationInterval] was cleared. *)
Lemma lookup_cleared s i t :
  match simulationInterval s with
  | Some j => delete j (timers s)
  | None => timers s
  end !! i = Some t ->
  timers s !! i = Some t.
Proof.
  destruct (simulationInterval s) as [j|]; [|done].
  rewrite lookup_delete_Some. by intros [_ ?].
Qed.

Lemma timer_ok_handle e s :
  map_Forall (fun _ t => timer_ok t = true) (timers s) ->
  map_Forall (fun _ t => timer_ok t = true) (timers (handle e s)).
Proof.
  intros Ok. destruct (passive e) eqn:P.
  - by destruct (passive_fields e s P) as (_ & _ & _ & _ & _ & -> & _).
  - destruct e as [id| | | | | | |]; try discriminate; cbn [handle].
    + unfold fire.
      destruct (timers s !! id) as [[[|f d c] ms]|] eqn:E; [| |done].
      * rewrite step_timers. destruct (lands s); [|done].
        intros i t [[_ <-]|[_ H]]%lookup_insert_Some; [done|].
        eapply Ok, lookup_cleared, H.
      * rewrite animateFrame_timers.
        pose proof (Ok _ _ E) as [_ F]%andb_true_iff. cbn [callback] in F.
        apply Nat.ltb_lt in F.
        destruct (Nat.eqb_spec (S f) 40) as [E40|N40].
        -- intros i t [_ H]%lookup_delete_Some. eapply Ok, H.
        -- intros i t [[_ <-]|[_ H]]%lookup_insert_Some; [|eapply Ok, H].
           apply andb_true_iff. split; [done|]. cbn [callback].
           apply Nat.ltb_lt. lia.
    + rewrite start_timers.
      intros i t [[_ <-]|[_ H]]%lookup_insert_Some; [done|].
      eapply Ok, lookup_cleared, H.
Qed.

(** X4. In every reachable state every live timer has a period of 16 ms,
    and every live camera transition has run fewer than 40 times, so each
    transition ends at its 40th run. *)
Theorem live_timers_are_sound (o : Options) (es : list Event) :
  map_Forall (fun _ t => timer_ok t = true) (timers (run es (init o))).
Proof.
  assert (G : forall s,
    map_Forall (fun _ t => timer_ok t = true) (timers s) ->
    map_Forall (fun _ t => timer_ok t = true) (timers (run es s))).
  { induction es as [|e es IH]; intros s Ok; cbn [run]; [done|].
    by apply IH, timer_ok_handle. }
  apply G. intros i t. cbn. by rewrite lookup_empty.
Qed.

Lemma frames_of_spec s a f :
  frames_of s a = Some f <->
  exists d c ms,
    timers s !! a = Some {| callback := CbAnimate f d c; delay := ms |}.
Proof.
  unfold frames_of. destruct (timers s !! a) as [[[|f' d c] ms]|]; split;
    try done; try (by intros (? & ? & ? & [=])).
  - intros [= ->]. eauto.
  - by intros (? & ? & ? & [= -> _ _ _]).
Qed.

(** X5. The 40th run of a camera transition's timer turns orbit control
    on and clears that timer only: a second transition that is live at
    that moment keeps its timer and its count, and its next run moves the
    camera with orbit control enabled. *)
Theorem first_transition_to_end_enables (s : State) (a b f' : nat) :
  frames_of s a = Some 39 ->
  frames_of s b = Some f' ->
  a <> b ->
  enabled (fire a s) = true /\
  frames_of (fire a s) a = None /\
  frames_of (fire a s) b = Some f' /\
  enabled (fire b (fire a s)) = true.
Proof.
  intros (d & c & ms & Ha)%frames_of_spec Hb Hab.
  rewrite (fire_animation _ _ _ _ _ _ Ha).
  assert (Hb' : frames_of (animateFrame a 39 d c s) b = Some f').
  { unfold frames_of in *. rewrite animateFrame_timers. cbn [Nat.eqb].
    by rewrite lookup_delete_ne. }
  split; [by rewrite animateFrame_enabled|].
  split; [unfold frames_of; rewrite animateFrame_timers; cbn [Nat.eqb];
          by rewrite lookup_delete_eq|].
  split; [done|].
  apply frames_of_spec in Hb' as (d' & c' & ms' & Hb').
  rewrite (fire_animation _ _ _ _ _ _ Hb'), !animateFrame_enabled.
  cbn [Nat.eqb]. by destruct (Nat.eqb f' 39).
Qed.

(** ** Dragging the handle *)

(** X6. From the moment the handle is grabbed until it is released, as
    long as no timer comes due, orbit control stays disabled and the view
    is not changed by any camera gesture (nor by anything else). *)
Theorem gestures_ignored_while_dragging (s : State) (es : list Event) :
  forallb holding es = true ->
  enabled (run es (handle DragStart s)) = false /\
  view (run es (handle DragStart s)) = view s.
Proof.
  change (view s) with (view (handle DragStart s)).
  assert (E : enabled (handle DragStart s) = false) by done.
  generalize dependent (handle DragStart s). clear s.
  induction es as [|e es IH]; intros s E; cbn [run forallb]; [done|].
  intros [H Hes]%andb_true_iff.
  assert (enabled (handle e s) = false /\ view (handle e s) = view s)
    as [E' V'].
  { destruct e; try discriminate; cbn [handle]; try done.
    - revert E. unfold start.
      by destruct s as [? ? ? ? ? ? ? ? ? [?|] ? ?].
    - by rewrite E. }
  destruct (IH (handle e s) E' Hes) as [-> ->]. done.
Qed.

End FurtherProperties.

(** * Further properties on binary64 *)

Section FurtherBinary64.

Context {Controls : @OrbitControls Binary64}.

(** A height of NaN stays NaN over a tick and fails the landing test. *)
Lemma nan_step (s : @State Binary64) :
  B64.is_nan (vy (position s)) = true ->
  B64.is_nan (vy (position (step s))) = true /\ lands s = false.
Proof.
  intros H.
  assert (Hn : B64.is_nan (vy (position (step s))) = true).
  { rewrite step_position. unfold addScaledVector. cbn [vy]. as_b64.
    by destruct (vy (position s)). }
  split; [exact Hn|]. unfold lands.
  by destruct (vy (position (step s))).
Qed.

(** X14. If the ball's height is NaN while a flight runs (as after a tick
    with an infinite parameter), no tick ever lands it: until Start is
    pressed again the flight timer stays live, the height stays NaN, and
    the recorded path grows by a point at every tick. *)
Theorem nan_height_never_lands (s : @State Binary64)
    (es : list (@Event Binary64)) :
  B64.is_nan (vy (position s)) = true ->
  running s = true ->
  no_start es = true ->
  running (run es s) = true /\
  B64.is_nan (vy (position (run es s))) = true /\
  List.length (pathPoints (run es s)) = List.length (pathPoints s) + ticks es s.
Proof.
  intros H R Hes.
  assert (G : running (run es s) = true /\
              B64.is_nan (vy (position (run es s))) = true).
  { revert s H R Hes. induction es as [|e es IH]; intros s H R;
      cbn [run no_start forallb]; [done|].
    intros [S Hes]%andb_true_iff. apply negb_true_iff in S.
    destruct (nan_step s H) as [H' L].
    apply IH; [| |exact Hes].
    - destruct (is_tick e s) eqn:T.
      + by rewrite (handle_tick _ _ T).
      + destruct (handle_path s e S) as (_ & Hp & _). by rewrite (Hp T).
    - rewrite (running_handle _ _ R), L. by rewrite andb_false_r. }
  destruct G as [G1 G2]. split; [exact G1|]. split; [exact G2|].
  by rewrite pathPoints_run, length_app, length_recorded.
Qed.

(** ** Dropped instead of thrown *)

(** A tick from rest at the origin puts the ball below the ground. *)
Lemma drop_from_rest (s : @State Binary64) :
  let v := velocity s in
  let o := options s in
  B64.is_zero (vx v) = true ->
  B64.is_zero (vy v) = true ->
  B64.is_zero (vz v) = true ->
  B64.finite (rho o) = true ->
  B64.finite (C_d o) = true ->
  B64.finite (area o) = true ->
  B64.finite (mass o) = true ->
  position s = origin ->
  velocity (step s) =
    mkV (S754_zero false) (S754_finite true 5649315372573551 (-55))
        (S754_zero false) /\
  position (step s) =
    mkV (S754_zero false) (S754_finite true 5784898941515316 (-61))
        (S754_zero false) /\
  lands s = true.
Proof.
  intros v o Zx Zy Zz Fr Fc Fa Fm P0.
  pose proof (rest_velocity s Zx Zy Zz Fr Fc Fa Fm) as V.
  assert (P : position (step s) =
              @mkV Binary64 (S754_zero false)
                   (S754_finite true 5784898941515316 (-61)) (S754_zero false)).
  { by rewrite step_position, V, P0. }
  split; [exact V|]. split; [exact P|]. unfold lands. by rewrite P.
Qed.

(** Start with a direction of zeros, and the first tick after it. *)
Lemma dropped (s : @State Binary64) :
  let d := direction s in
  let o := options s in
  B64.is_zero (vx d) = true ->
  B64.is_zero (vy d) = true ->
  B64.is_zero (vz d) = true ->
  B64.finite (speed o) = true ->
  B64.finite (rho o) = true ->
  B64.finite (C_d o) = true ->
  B64.finite (area o) = true ->
  B64.finite (mass o) = true ->
  let s' := run [ClickStart; Tick (next_timer s)] s in
  running s' = false /\
  enabled s' = false /\
  velocity s' =
    mkV (S754_zero false) (S754_finite true 5649315372573551 (-55))
        (S754_zero false) /\
  position s' =
    mkV (S754_zero false) (S754_finite true 5784898941515316 (-61))
        (S754_zero false) /\
  pathGeometry s' = [mkV (S754_zero false) (S754_zero false) (S754_zero false)].
Proof.
  intros d o Zx Zy Zz Fs Fr Fc Fa Fm. cbv zeta. cbn [run handle].
  assert (T : is_step_timer (start s) (next_timer s) = true).
  { unfold is_step_timer. by rewrite start_timers, lookup_insert_eq. }
  assert (O : options (start s) = options s) by (unfold start; by_fields s).
  destruct (drop_from_rest (start s)) as (V & P & L).
  1-3: rewrite start_velocity; unfold multiplyScalar; cbn [vx vy vz];
       by apply mul_zero_l.
  1-4: by rewrite O.
  { apply start_position. }
  rewrite (fire_step _ _ T).
  split; [apply running_after_landing; [apply start_running|exact L]|].
  split; [by rewrite step_enabled, L|].
  split; [exact V|]. split; [exact P|].
  rewrite step_pathGeometry, L, start_position.
  by destruct (start_path s) as [-> _].
Qed.

(** X11. Start pressed with the handle still on the origin, as it is when
    the script has loaded: for all finite parameters the ball is dropped
    from rest, the first tick gives it the velocity -9.8 * 0.016 and puts
    it below the ground at y = -9.8 * 0.016 * 0.016 (each product
    rounded), and the throw ends there, orbit control off, with a
    published path of one point, the origin. *)
Theorem unaimed_throw_lands_at_once (o : @Options Binary64) :
  B64.finite (speed o) = true ->
  B64.finite (rho o) = true ->
  B64.finite (C_d o) = true ->
  B64.finite (area o) = true ->
  B64.finite (mass o) = true ->
  let s := run [ClickStart; Tick 1] (init o) in
  running s = false /\
  enabled s = false /\
  velocity s =
    mkV (S754_zero false) (S754_finite true 5649315372573551 (-55))
        (S754_zero false) /\
  position s =
    mkV (S754_zero false) (S754_finite true 5784898941515316 (-61))
        (S754_zero false) /\
  pathGeometry s = [mkV (S754_zero false) (S754_zero false) (S754_zero false)].
Proof.
  intros Fs Fr Fc Fa Fm. by apply (dropped (init o)).
Qed.

(** The handle so far from the ball that the square of its distance
    overflows is normalized to zeros: the length is Infinity, and every
    coordinate is multiplied by 1 / Infinity = 0. *)
Lemma normalize_overflow (c : @Vector3 Binary64) :
  B64.finite (vx c) = true ->
  B64.finite (vy c) = true ->
  B64.finite (vz c) = true ->
  (vx c * vx c + vy c * vy c + vz c * vz c)%sf = S754_infinity false ->
  B64.is_zero (vx (normalize c)) = true /\
  B64.is_zero (vy (normalize c)) = true /\
  B64.is_zero (vz (normalize c)) = true.
Proof.
  intros Fx Fy Fz H.
  unfold normalize, divideScalar, multiplyScalar, or_else, length, lengthSq.
  as_b64. unfold B64.add, B64.mul, B64.sqrt. rewrite H. cbn [vx vy vz].
  change (B64.div (B64.of_Z 1) (SFsqrt 53 1024 (S754_infinity false)))
    with (S754_zero false).
  repeat split; by apply mul_zero_r.
Qed.



(** ** Too fast to land *)

Lemma mul_unbounded_l x y :
  B64.finite x = false -> B64.finite (B64.mul x y) = false.
Proof. by destruct x, y. Qed.

Lemma mul_unbounded_r x y :
  B64.finite y = false -> B64.finite (B64.mul x y) = false.
Proof. by destruct x, y. Qed.

Lemma div_unbounded_two x :
  B64.finite x = false -> B64.finite (B64.div x (B64.of_Z 2)) = false.
Proof. by destruct x. Qed.

Lemma mul_zero_unbounded z k :
  B64.is_zero z = true -> B64.finite k = false -> B64.mul z k = S754_nan.
Proof. by destruct z, k. Qed.

Lemma add_nan_r x : B64.add x S754_nan = S754_nan.
Proof. by destruct x. Qed.

(** X16. A velocity so large that the square of its length overflows
    breaks the tick, whatever the parameters: the length is Infinity, the
    normalized velocity is a vector of zeros, the drag factor is infinite
    or NaN, and their product is NaN; the new velocity and the new position
    are NaN in every coordinate, the landing test fails, and a running
    flight stays running. *)
Theorem overflowing_speed_breaks_the_tick (s : @State Binary64) :
  let v := velocity s in
  B64.finite (vx v) = true ->
  B64.finite (vy v) = true ->
  B64.finite (vz v) = true ->
  (vx v * vx v + vy v * vy v + vz v * vz v)%sf = S754_infinity false ->
  velocity (step s) = mkV S754_nan S754_nan S754_nan /\
  position (step s) = mkV S754_nan S754_nan S754_nan /\
  lands s = false /\
  running (step s) = running s.
Proof.
  intros v Fx Fy Fz H.
  destruct (normalize_overflow v Fx Fy Fz H) as (Zx & Zy & Zz).
  assert (K : B64.finite
                (rho (options s) * lengthSq v * C_d (options s)
                 * area (options s) / of_Z 2)%num = false).
  { unfold lengthSq. as_b64. apply div_unbounded_two.
    do 2 apply mul_unbounded_l. apply mul_unbounded_r.
    unfold B64.add, B64.mul. by rewrite H. }
  assert (V : velocity (step s) = @mkV Binary64 S754_nan S754_nan S754_nan).
  { rewrite step_velocity. fold v.
    unfold a_drag, f_drag, addScaledVector, multiplyScalar, negate.
    cbn [vx vy vz]. as_b64.
    rewrite !(mul_zero_unbounded _ _ (opp_zero _ Zx) K),
            !(mul_zero_unbounded _ _ (opp_zero _ Zy) K),
            !(mul_zero_unbounded _ _ (opp_zero _ Zz) K).
    change (B64.mul (B64.mul S754_nan (mass (options s)))
                    (B64.div (B64.of_Z dt) (B64.of_Z 1000)))
      with S754_nan.
    by rewrite !add_nan_r. }
  assert (P : position (step s) = @mkV Binary64 S754_nan S754_nan S754_nan).
  { rewrite step_position, V. unfold addScaledVector. cbn [vx vy vz]. as_b64.
    change (B64.mul S754_nan (B64.div (B64.of_Z dt) (B64.of_Z 1000)))
      with S754_nan.
    by rewrite !add_nan_r. }
  assert (L : lands s = false) by (unfold lands; by rewrite P).
  split; [exact V|]. split; [exact P|]. split; [exact L|].
  by apply running_after_flight.
Qed.

(** ** The direction of the drag *)

(** Rounding keeps the sign it is given. *)
Lemma round_sign b m e l :
  B64.has_sign b (binary_round_aux 53 1024 b m e l) = true.
Proof.
  unfold binary_round_aux.
  destruct (shr_fexp 53 1024 m e l) as [r1 e1].
  destruct (shr_fexp 53 1024 _ e1 loc_Exact) as [r2 e2].
  destruct (shr_m r2); [apply Bool.eqb_reflx| |done].
  destruct (Z.leb e2 (1024 - 53)); apply Bool.eqb_reflx.
Qed.

Lemma mul_sign a b x y :
  B64.has_sign a x = true -> B64.has_sign b y = true ->
  B64.has_sign (xorb a b) (B64.mul x y) = true.
Proof.
  destruct x as [sx|sx| |sx mx ex], y as [sy|sy| |sy my ey];
    try done; intros ->%Bool.eqb_prop ->%Bool.eqb_prop;
    cbv [B64.mul SFmul]; try done;
    first [apply round_sign|apply Bool.eqb_reflx].
Qed.

Lemma div_sign a b x y :
  B64.has_sign a x = true -> B64.has_sign b y = true ->
  B64.has_sign (xorb a b) (B64.div x y) = true.
Proof.
  destruct x as [sx|sx| |sx mx ex], y as [sy|sy| |sy my ey];
    try done; intros ->%Bool.eqb_prop ->%Bool.eqb_prop;
    cbv [B64.div SFdiv]; try done;
    try apply Bool.eqb_reflx.
  destruct (SFdiv_core_binary 53 1024 (Z.pos mx) ex (Z.pos my) ey) as [[mz ez] lz].
  apply round_sign.
Qed.

Lemma opp_sign a x :
  B64.has_sign a x = true -> B64.has_sign (negb a) (B64.opp x) = true.
Proof. destruct x; try done; by intros ->%Bool.eqb_prop; apply Bool.eqb_reflx. Qed.

Lemma add_sign x y :
  B64.has_sign false x = true -> B64.has_sign false y = true ->
  B64.has_sign false (B64.add x y) = true.
Proof.
  destruct x as [sx|sx| |sx mx ex], y as [sy|sy| |sy my ey];
    try done; intros ->%Bool.eqb_prop ->%Bool.eqb_prop; try done.
  cbv [B64.add SFadd cond_Zopp Z.add binary_normalize binary_round].
  destruct (shl_align _ _ _) as [mz ez]. apply round_sign.
Qed.

Lemma sqrt_sign x :
  B64.has_sign false x = true -> B64.has_sign false (B64.sqrt x) = true.
Proof.
  destruct x as [sx|sx| |sx mx ex];
    try done; intros ->%Bool.eqb_prop; try done.
  cbv [B64.sqrt SFsqrt].
  destruct (SFsqrt_core_binary 53 1024 (Z.pos mx) ex) as [[mz ez] lz].
  apply round_sign.
Qed.

Lemma square_sign x : B64.has_sign false (B64.mul x x) = true.
Proof.
  assert (H : exists b, B64.has_sign b x = true).
  { destruct x as [sx|sx| |sx mx ex]; [exists sx|exists sx|by exists false|exists sx];
      apply Bool.eqb_reflx. }
  destruct H as [b H]. pose proof (mul_sign b b x x H H) as M.
  by rewrite Bool.xorb_nilpotent in M.
Qed.

(** X17. With rho, C_d, area and mass not negative (sign bit clear: a
    positive number, +0 or +Infinity; or NaN), every coordinate of the
    drag term of a tick is NaN or carries the sign opposite to the same
    coordinate of the velocity: rounding, overflow and underflow never
    turn the drag along the velocity. *)
Theorem drag_opposes_velocity (o : @Options Binary64) (v : @Vector3 Binary64)
    (bx by_ bz : bool) :
  B64.has_sign false (rho o) = true ->
  B64.has_sign false (C_d o) = true ->
  B64.has_sign false (area o) = true ->
  B64.has_sign false (mass o) = true ->
  B64.has_sign bx (vx v) = true ->
  B64.has_sign by_ (vy v) = true ->
  B64.has_sign bz (vz v) = true ->
  B64.has_sign (negb bx) (vx (a_drag o v)) = true /\
  B64.has_sign (negb by_) (vy (a_drag o v)) = true /\
  B64.has_sign (negb bz) (vz (a_drag o v)) = true.
Proof.
  intros Sr Sc Sa Sm Sx Sy Sz.
  assert (Sq : B64.has_sign false (lengthSq v) = true).
  { unfold lengthSq. as_b64. repeat apply add_sign; apply square_sign. }
  assert (Sl : B64.has_sign false (or_else (length v) (of_Z 1)) = true).
  { unfold or_else. destruct (truthy (length v)); [|done].
    unfold length. as_b64. by apply sqrt_sign. }
  assert (Si : B64.has_sign false
                 (B64.div (B64.of_Z 1) (or_else (length v) (of_Z 1))) = true).
  { by apply (div_sign false false). }
  assert (Sk : B64.has_sign false
                 (rho o * lengthSq v * C_d o * area o / of_Z 2)%num = true).
  { as_b64. apply (div_sign false false); [|done].
    apply (mul_sign false false); [|done].
    apply (mul_sign false false); [|done].
    by apply (mul_sign false false). }
  assert (G : forall b c, B64.has_sign b c = true ->
    B64.has_sign (negb b)
      (B64.mul
         (B64.mul
            (B64.opp
               (B64.mul c (B64.div (B64.of_Z 1) (or_else (length v) (of_Z 1)))))
            (rho o * lengthSq v * C_d o * area o / of_Z 2)%num)
         (mass o)) = true).
  { intros b c Hc.
    replace (negb b) with (xorb (xorb (negb (xorb b false)) false) false)
      by by destruct b.
    apply mul_sign; [|done]. apply mul_sign; [|done].
    apply opp_sign. by apply mul_sign. }
  unfold a_drag, f_drag, normalize, divideScalar, multiplyScalar, negate.
  cbn [vx vy vz]. as_b64.
  split; [by apply G|]. split; by apply G.
Qed.

End FurtherBinary64.

(** * Runs that meet the conditions of the further properties *)

(** After an unaimed throw has landed. *)
Lemma nothing_moves_between_flights_witness :
  let s : @State Binary64 := run [ClickStart; Tick 1] (init options_init) in
  let es : list (@Event Binary64) := [Tick 1; Frame; Tick 2; DragStart] in
  running s = false /\
  no_start es = true /\
  running (run es s) = false /\
  position (run es s) = position s /\
  velocity (run es s) = velocity s /\
  pathPoints (run es s) = pathPoints s /\
  pathGeometry (run es s) = pathGeometry s.
Proof.
  split; [by_vm|]. split; [by_vm|].
  apply (nothing_moves_between_flights options_init [ClickStart; Tick 1]
           [Tick 1; Frame; Tick 2; DragStart]); by_vm.
Defined.


(** The throw straight up, 50 ticks in. *)
Lemma path_unpublished_in_flight_witness :
  let s : @State Binary64 := start (run aim_up (init options_init)) in
  let es : list (@Event Binary64) := repeat (Tick 1) 50 in
  no_start es = true /\
  running (run es s) = true /\
  pathGeometry (run es s) = [] /\
  List.length (pathPoints (run es s)) = ticks es s.
Proof.
  split; [by_vm|]. split; [by_vm|].
  apply (path_unpublished_in_flight options_init aim_up (repeat (Tick 1) 50));
    by_vm.
Defined.

(** Two unaimed throws in a row: the first transition (timer 2) is about
    to make its 40th run while the second (timer 4) has not run yet. *)
Lemma first_transition_to_end_enables_witness :
  let s : @State Binary64 :=
    run ([ClickStart; Tick 1; ClickStart; Tick 3] ++ repeat (Tick 2) 39)
        (init options_init) in
  frames_of s 2 = Some 39 /\
  frames_of s 4 = Some 0 /\
  2 <> 4 /\
  enabled (fire 2 s) = true /\
  frames_of (fire 2 s) 2 = None /\
  frames_of (fire 2 s) 4 = Some 0 /\
  enabled (fire 4 (fire 2 s)) = true.
Proof.
  split; [by_vm|]. split; [by_vm|]. split; [done|].
  apply (first_transition_to_end_enables
           (run ([ClickStart; Tick 1; ClickStart; Tick 3] ++ repeat (Tick 2) 39)
                (init options_init)) 2 4 0); [by_vm|by_vm|done].
Defined.

(** A drag of the handle with a camera gesture in the middle. *)
Lemma gestures_ignored_while_dragging_witness :
  let s : @State Binary64 := init options_init in
  let es : list (@Event Binary64) :=
    [Drag (mkV (of_Z 1) (of_Z 2) (of_Z 0));
     Orbit {| target := mkV (of_Z 5) (of_Z 5) (of_Z 5);
              camera_position := mkV (of_Z 0) (of_Z 9) (of_Z 0);
              camera_rotation := mkV (of_Z 0) (of_Z 0) (of_Z 0) |};
     Frame; ClickStart] in
  forallb holding es = true /\
  enabled (run es (handle DragStart s)) = false /\
  view (run es (handle DragStart s)) = view s.
Proof.
  split; [by_vm|].
  by apply gestures_ignored_while_dragging.
Defined.

(** The flight after a tick with rho = Infinity. *)
Lemma nan_height_never_lands_witness :
  let s : @State Binary64 :=
    run [@Edit Binary64 Frho (S754_infinity false); ClickStart; Tick 1]
        (init options_init) in
  let es : list (@Event Binary64) := repeat (Tick 1) 5 in
  B64.is_nan (vy (position s)) = true /\
  running s = true /\
  no_start es = true /\
  running (run es s) = true /\
  B64.is_nan (vy (position (run es s))) = true /\
  List.length (pathPoints (run es s)) = List.length (pathPoints s) + ticks es s.
Proof.
  split; [by_vm|]. split; [by_vm|]. split; [by_vm|].
  apply (nan_height_never_lands
           (run [@Edit Binary64 Frho (S754_infinity false); ClickStart; Tick 1]
                (init options_init))
           (repeat (Tick 1) 5)); by_vm.
Defined.

(** The script as loaded, with its initial options. *)
Lemma unaimed_throw_lands_at_once_witness :
  let o : @Options Binary64 := options_init in
  let s : @State Binary64 := run [ClickStart; Tick 1] (init o) in
  (B64.finite (speed o) = true /\ B64.finite (rho o) = true /\
   B64.finite (C_d o) = true /\ B64.finite (area o) = true /\
   B64.finite (mass o) = true) /\
  running s = false /\
  enabled s = false /\
  velocity s =
    mkV (S754_zero false) (S754_finite true 5649315372573551 (-55))
        (S754_zero false) /\
  position s =
    mkV (S754_zero false) (S754_finite true 5784898941515316 (-61))
        (S754_zero false) /\
  pathGeometry s = [mkV (S754_zero false) (S754_zero false) (S754_zero false)].
Proof.
  split; [by_vm|].
  apply (unaimed_throw_lands_at_once options_init); by_vm.
Defined.



(** The throw straight up at 1e200 m/s. *)
Lemma overflowing_speed_breaks_the_tick_witness :
  let s : @State Binary64 := thrown_fast in
  let v := velocity s in
  (B64.finite (vx v) = true /\ B64.finite (vy v) = true /\
   B64.finite (vz v) = true /\
   (vx v * vx v + vy v * vy v + vz v * vz v)%sf = S754_infinity false) /\
  velocity (step s) = mkV S754_nan S754_nan S754_nan /\
  position (step s) = mkV S754_nan S754_nan S754_nan /\
  lands s = false /\
  running (step s) = running s.
Proof.
  split; [by_vm|].
  apply (overflowing_speed_breaks_the_tick thrown_fast); by_vm.
Defined.

(** The first tick of the throw straight up: the velocity points up, the
    drag down. *)
Lemma drag_opposes_velocity_witness :
  let o := options thrown in
  let v := velocity thrown in
  (B64.has_sign false (rho o) = true /\
   B64.has_sign false (C_d o) = true /\
   B64.has_sign false (area o) = true /\
   B64.has_sign false (mass o) = true /\
   B64.has_sign false (vx v) = true /\
   B64.has_sign false (vy v) = true /\
   B64.has_sign false (vz v) = true) /\
  B64.has_sign true (vx (a_drag o v)) = true /\
  B64.has_sign true (vy (a_drag o v)) = true /\
  B64.has_sign true (vz (a_drag o v)) = true.
Proof.
  split; [by_vm|].
  apply (drag_opposes_velocity (options thrown) (velocity thrown)
           false false false); by_vm.
Defined.
